(** * Task manager (app.js): a shallow embedding and its specification

    The page script keeps one array of tasks in memory, mirrors it into
    [localStorage] under the key ["tasks"], draws it into a table body and,
    in the direct POST variant, sends every new task to a sheet endpoint.
    The variants of the script (direct POST, hidden form, no sync) share
    [loadTasks], [saveTasks], [deleteTask], [renderTasks] and [escapeHtml]
    word for word; the direct POST variant is the one embedded here.

    The development follows the script function by function:
    - JavaScript strings are sequences of UTF-16 code units ([list N]);
    - JavaScript values are the values [JSON.parse] can build, plus
      [undefined] (the result of reading a missing property);
    - [JSON.stringify] and [JSON.parse] are written out after ECMA-262
      (SerializeJSONProperty, QuoteJSONString, Number::toString, the JSON
      grammar of ECMA-404);
    - the page is a record of the mutable things the script touches, and
      every function of the script is a computation in a state monad with
      exceptions that also records the observable effects in a trace. *)

From Stdlib Require Import ZArith NArith List String Ascii Bool Lia.
From stdpp Require Import gmap.
Import ListNotations.

Local Open Scope N_scope.

(** ** Strings *)

(** A JavaScript string: UTF-16 code units, each in [0, 65535]. *)
Abbreviation jsstring := (list N).

(** An ASCII literal of the script as a JavaScript string. *)
Definition lit (s : string) : jsstring :=
  List.map N_of_ascii (list_ascii_of_string s).

Fixpoint str_eqb (a b : jsstring) : bool :=
  match a, b with
  | [], [] => true
  | x :: a', y :: b' => (x =? y) && str_eqb a' b'
  | _, _ => false
  end.

(** WhiteSpace and LineTerminator code points, the ones
    [String.prototype.trim] removes. *)
Definition is_js_space (c : N) : bool :=
  (c =? 9) || (c =? 10) || (c =? 11) || (c =? 12) || (c =? 13) || (c =? 32)
  || (c =? 160) || (c =? 5760) || ((8192 <=? c) && (c <=? 8202))
  || (c =? 8232) || (c =? 8233) || (c =? 8239) || (c =? 8287)
  || (c =? 12288) || (c =? 65279).

Fixpoint trim_start (s : jsstring) : jsstring :=
  match s with
  | c :: r => if is_js_space c then trim_start r else s
  | [] => []
  end.

Definition trim_end (s : jsstring) : jsstring := rev (trim_start (rev s)).

(** [s.trim()] *)
Definition trim (s : jsstring) : jsstring := trim_end (trim_start s).

(** [sep]-separated concatenation, as [Array.prototype.join] does on
    strings. *)
Fixpoint join (sep : jsstring) (parts : list jsstring) : jsstring :=
  match parts with
  | [] => []
  | [p] => p
  | p :: ps => p ++ sep ++ join sep ps
  end.

(** ** Numbers *)

(** A JavaScript Number is an IEEE-754 double.  The model carries the exact
    decimal value [mant / 10 ^ scale] of a numeral.  It coincides with the
    double wherever the double is exact, in particular on every safe integer
    ([Number.isSafeInteger]), which is where [Date.now()] lives.  NaN and the
    infinities are outside the model: neither [JSON.parse] nor [Date.now()]
    produces them. *)
Record number := Num { mant : Z; scale : nat }.

Definition num_of_Z (z : Z) : number := Num z 0.

(** Drops trailing zeros of the fraction: the canonical form has [scale = 0]
    or a mantissa that is not a multiple of ten. *)
Fixpoint num_norm_aux (k : nat) (m : Z) : number :=
  match k with
  | O => Num m 0
  | S k' => if (m mod 10 =? 0)%Z then num_norm_aux k' (m / 10)%Z else Num m k
  end.

Definition num_norm (x : number) : number := num_norm_aux (scale x) (mant x).

(** [a === b] on numbers: equality of the values denoted. *)
Definition num_eqb (a b : number) : bool :=
  (mant a * 10 ^ Z.of_nat (scale b) =? mant b * 10 ^ Z.of_nat (scale a))%Z.

(** [Number.isSafeInteger] on an integer. *)
Definition is_safe_integer (z : Z) : Prop := (Z.abs z <= 2 ^ 53 - 1)%Z.

Definition digit_char (d : N) : N := 48 + d.

Fixpoint digits_aux (fuel : nat) (n : N) (acc : jsstring) : jsstring :=
  match fuel with
  | O => acc
  | S fuel' =>
      let acc' := digit_char (n mod 10) :: acc in
      if n / 10 =? 0 then acc' else digits_aux fuel' (n / 10) acc'
  end.

(** The decimal digits of [n], most significant first; ["0"] for zero. *)
Definition digits (n : N) : jsstring := digits_aux (S (N.to_nat (N.log2 n))) n [].

Fixpoint drop_zeros (l : jsstring) : jsstring :=
  match l with
  | c :: r => if c =? 48 then drop_zeros r else l
  | [] => []
  end.

Definition strip_trailing_zeros (ds : jsstring) : jsstring :=
  rev (drop_zeros (rev ds)).

Definition zeros (n : nat) : jsstring := repeat 48 n.

(** Number::toString(x, 10) of ECMA-262.  With [s] the digits without
    trailing zeros, [k] their count and [n] the position of the decimal
    point, the value is [0.s * 10 ^ n]; plain notation is used for
    [-5 <= n <= 21] and scientific notation otherwise.  The digits are all
    the digits of the exact decimal value: they are the ones the script
    prints on every safe integer; a double of more than 17 significant
    digits is printed with its shortest round-trip digits instead, so the
    statements that spell out a printed id ask for a safe integer. *)
Definition number_to_string (x : number) : jsstring :=
  let x' := num_norm x in
  let m := mant x' in
  if (m =? 0)%Z then lit "0" else
  let sign := if (m <? 0)%Z then lit "-" else [] in
  let ds := digits (Z.abs_N m) in
  let s := strip_trailing_zeros ds in
  let k := length s in
  let n := (Z.of_nat (length ds) - Z.of_nat (scale x'))%Z in
  sign ++
  if ((-5 <=? n) && (n <=? 21))%Z then
    if (Z.of_nat k <=? n)%Z then s ++ zeros (Z.to_nat n - k)
    else if (0 <? n)%Z then
      firstn (Z.to_nat n) s ++ lit "." ++ skipn (Z.to_nat n) s
    else lit "0." ++ zeros (Z.to_nat (- n)) ++ s
  else
    let e := (n - 1)%Z in
    let esign := if (e <? 0)%Z then lit "-" else lit "+" in
    let edigits := digits (Z.abs_N e) in
    match s with
    | [d] => [d] ++ lit "e" ++ esign ++ edigits
    | d :: r => [d] ++ lit "." ++ r ++ lit "e" ++ esign ++ edigits
    | [] => []
    end.

(** ** Values *)

(** The values [JSON.parse] builds, and [undefined].  An object keeps its own
    properties in the order [Object.keys] lists them. *)
#[local] Set Warnings "-register-all".
Inductive JsVal :=
| JUndefined
| JNull
| JBool (b : bool)
| JNum (n : number)
| JStr (s : jsstring)
| JArr (elems : list JsVal)
| JObj (props : list (jsstring * JsVal)).

Definition is_array (v : JsVal) : bool :=
  match v with
  | JArr _ => true
  | _ => false
  end.

Fixpoint obj_lookup (k : jsstring) (ps : list (jsstring * JsVal)) : option JsVal :=
  match ps with
  | [] => None
  | (k', v) :: r => if str_eqb k k' then Some v else obj_lookup k r
  end.

(** ** JSON.stringify *)

Definition hex_char (d : N) : N := if d <? 10 then 48 + d else 87 + d.

(** UnicodeEscape: [\uXXXX] with lowercase hexadecimal digits. *)
Definition unicode_escape (c : N) : jsstring :=
  [92; 117; hex_char (c / 4096 mod 16); hex_char (c / 256 mod 16);
   hex_char (c / 16 mod 16); hex_char (c mod 16)].

Definition is_high_surrogate (c : N) : bool := (55296 <=? c) && (c <=? 56319).
Definition is_low_surrogate (c : N) : bool := (56320 <=? c) && (c <=? 57343).

(** One code unit that is not half of a surrogate pair. *)
Definition quote_unit (c : N) : jsstring :=
  if c =? 8 then lit "\b"
  else if c =? 9 then lit "\t"
  else if c =? 10 then lit "\n"
  else if c =? 12 then lit "\f"
  else if c =? 13 then lit "\r"
  else if c =? 34 then [92; 34]
  else if c =? 92 then [92; 92]
  else if (c <? 32) || is_high_surrogate c || is_low_surrogate c
       then unicode_escape c
  else [c].

(** The body of QuoteJSONString: the string is read code point by code
    point, so a high surrogate followed by a low one goes through as it is,
    and a lone surrogate is escaped. *)
Fixpoint quote_units (s : jsstring) : jsstring :=
  match s with
  | [] => []
  | c :: r =>
      if is_high_surrogate c then
        match r with
        | d :: r' =>
            if is_low_surrogate d then c :: d :: quote_units r'
            else quote_unit c ++ quote_units r
        | [] => quote_unit c
        end
      else quote_unit c ++ quote_units r
  end.

Definition quote (s : jsstring) : jsstring := [34] ++ quote_units s ++ [34].

(** SerializeJSONProperty without replacer and indentation: [None] stands
    for [undefined].  An [undefined] array element is written as [null], an
    [undefined] property is left out. *)
Fixpoint stringify (v : JsVal) : option jsstring :=
  match v with
  | JUndefined => None
  | JNull => Some (lit "null")
  | JBool true => Some (lit "true")
  | JBool false => Some (lit "false")
  | JNum n => Some (number_to_string n)
  | JStr s => Some (quote s)
  | JArr l =>
      Some (lit "[" ++
            join (lit ",")
              ((fix elems (l : list JsVal) : list jsstring :=
                  match l with
                  | [] => []
                  | x :: r =>
                      match stringify x with
                      | Some s => s
                      | None => lit "null"
                      end :: elems r
                  end) l) ++
            lit "]")
  | JObj ps =>
      Some (lit "{" ++
            join (lit ",")
              ((fix members (ps : list (jsstring * JsVal)) : list jsstring :=
                  match ps with
                  | [] => []
                  | (k, x) :: r =>
                      match stringify x with
                      | Some s => (quote k ++ lit ":" ++ s) :: members r
                      | None => members r
                      end
                  end) ps) ++
            lit "}")
  end.

(** [JSON.stringify(v)] *)
Definition JSON_stringify (v : JsVal) : option jsstring := stringify v.

(** ** JSON.parse *)

Inductive parsed (A : Type) :=
| Parsed (a : A) (rest : jsstring)
| SyntaxError
| OutOfFuel.
Arguments Parsed {A} a rest.
Arguments SyntaxError {A}.
Arguments OutOfFuel {A}.

(** JSON white space: tab, line feed, carriage return, space. *)
Definition is_json_ws (c : N) : bool :=
  (c =? 9) || (c =? 10) || (c =? 13) || (c =? 32).

Fixpoint skip_ws (s : jsstring) : jsstring :=
  match s with
  | c :: r => if is_json_ws c then skip_ws r else s
  | [] => []
  end.

Definition is_digit (c : N) : bool := (48 <=? c) && (c <=? 57).

Definition hex_val (c : N) : option N :=
  if (48 <=? c) && (c <=? 57) then Some (c - 48)
  else if (97 <=? c) && (c <=? 102) then Some (c - 87)
  else if (65 <=? c) && (c <=? 70) then Some (c - 55)
  else None.

Definition hex4_val (h1 h2 h3 h4 : N) : option N :=
  match hex_val h1, hex_val h2, hex_val h3, hex_val h4 with
  | Some a, Some b, Some c, Some d => Some (4096 * a + 256 * b + 16 * c + d)
  | _, _, _, _ => None
  end.

(** The character a one-letter escape stands for. *)
Definition unescape (e : N) : option N :=
  if e =? 34 then Some 34
  else if e =? 92 then Some 92
  else if e =? 47 then Some 47
  else if e =? 98 then Some 8
  else if e =? 102 then Some 12
  else if e =? 110 then Some 10
  else if e =? 114 then Some 13
  else if e =? 116 then Some 9
  else None.

Definition cons_unit (c : N) (p : option (jsstring * jsstring))
  : option (jsstring * jsstring) :=
  match p with
  | Some (str, rest) => Some (c :: str, rest)
  | None => None
  end.

(** The characters of a string after its opening quote, up to and
    including the closing quote. *)
Fixpoint parse_string_chars (s : jsstring) : option (jsstring * jsstring) :=
  match s with
  | [] => None
  | c :: r =>
      if c =? 34 then Some ([], r)
      else if c =? 92 then
        match r with
        | [] => None
        | e :: r1 =>
            if e =? 117 then
              match r1 with
              | h1 :: h2 :: h3 :: h4 :: r2 =>
                  match hex4_val h1 h2 h3 h4 with
                  | Some u => cons_unit u (parse_string_chars r2)
                  | None => None
                  end
              | _ => None
              end
            else
              match unescape e with
              | Some u => cons_unit u (parse_string_chars r1)
              | None => None
              end
        end
      else if c <? 32 then None
      else cons_unit c (parse_string_chars r)
  end.

Fixpoint span_digits (s : jsstring) : jsstring * jsstring :=
  match s with
  | c :: r =>
      if is_digit c then
        let (ds, r') := span_digits r in (c :: ds, r')
      else ([], s)
  | [] => ([], [])
  end.

Definition digits_value (ds : jsstring) : N :=
  fold_left (fun acc c => 10 * acc + (c - 48)) ds 0.

(** The value of a numeral with integer digits [i], fraction digits [f] and
    exponent [e]. *)
Definition numeral_value (neg : bool) (i f : jsstring) (e : Z) : number :=
  let m := Z.of_N (digits_value (i ++ f)) in
  let m := if neg then (- m)%Z else m in
  let e10 := (e - Z.of_nat (length f))%Z in
  if (0 <=? e10)%Z then Num (m * 10 ^ e10) 0
  else num_norm (Num m (Z.to_nat (- e10))).

(** The parts of a JSON number: an optional minus sign; then a single
    zero, or a nonzero digit and any digits; then optionally a point and
    one or more digits; then optionally e or E, an optional sign and one or
    more digits. *)
Definition minus_sign (s : jsstring) : bool * jsstring :=
  match s with
  | c :: r => if c =? 45 then (true, r) else (false, s)
  | [] => (false, s)
  end.

Definition int_part (s : jsstring) : option (jsstring * jsstring) :=
  match s with
  | [] => None
  | c :: r =>
      if c =? 48 then Some ([c], r)
      else if is_digit c then
        let (ds, r') := span_digits r in Some (c :: ds, r')
      else None
  end.

Definition frac_part (s : jsstring) : option (jsstring * jsstring) :=
  match s with
  | c :: r =>
      if c =? 46 then
        match span_digits r with
        | ([], _) => None
        | (f, r') => Some (f, r')
        end
      else Some ([], s)
  | [] => Some ([], s)
  end.

Definition exp_sign (s : jsstring) : bool * jsstring :=
  match s with
  | g :: r =>
      if g =? 45 then (true, r)
      else if g =? 43 then (false, r)
      else (false, s)
  | [] => (false, s)
  end.

Definition exp_part (s : jsstring) : option (Z * jsstring) :=
  match s with
  | c :: r =>
      if (c =? 101) || (c =? 69) then
        let (eneg, r1) := exp_sign r in
        match span_digits r1 with
        | ([], _) => None
        | (ed, r2) =>
            let e := Z.of_N (digits_value ed) in
            Some (if eneg then (- e)%Z else e, r2)
        end
      else Some (0%Z, s)
  | [] => Some (0%Z, s)
  end.

(** A JSON number at the head of [s]. *)
Definition parse_number (s : jsstring) : option (number * jsstring) :=
  let (neg, s1) := minus_sign s in
  match int_part s1 with
  | None => None
  | Some (i, s2) =>
      match frac_part s2 with
      | None => None
      | Some (f, s3) =>
          match exp_part s3 with
          | None => None
          | Some (e, s4) => Some (numeral_value neg i f e, s4)
          end
      end
  end.

(** [s] starts with the literal [w]: the rest after it. *)
Fixpoint strip_prefix (w s : jsstring) : option jsstring :=
  match w, s with
  | [], _ => Some s
  | x :: w', y :: s' => if x =? y then strip_prefix w' s' else None
  | _ :: _, [] => None
  end.

(** An array index: a canonical numeral below [2 ^ 32 - 1].  Such keys come
    first, in ascending order, when the properties of an object are
    listed. *)
Definition array_index (k : jsstring) : option N :=
  match k with
  | [] => None
  | c :: r =>
      if forallb is_digit k && (negb (c =? 48) || (length r =? 0)%nat) then
        let v := digits_value k in
        if v <=? 4294967294 then Some v else None
      else None
  end.

Fixpoint obj_replace (k : jsstring) (v : JsVal) (ps : list (jsstring * JsVal))
  : list (jsstring * JsVal) :=
  match ps with
  | [] => []
  | (k', v') :: r =>
      if str_eqb k k' then (k', v) :: r else (k', v') :: obj_replace k v r
  end.

Fixpoint obj_insert_index (i : N) (k : jsstring) (v : JsVal)
    (ps : list (jsstring * JsVal)) : list (jsstring * JsVal) :=
  match ps with
  | [] => [(k, v)]
  | (k', v') :: r =>
      match array_index k' with
      | Some j =>
          if j <? i then (k', v') :: obj_insert_index i k v r
          else (k, v) :: ps
      | None => (k, v) :: ps
      end
  end.

(** CreateDataProperty: an existing key keeps its place and takes the new
    value; a new array index goes among the indices; any other new key goes
    last. *)
Definition obj_set (k : jsstring) (v : JsVal) (ps : list (jsstring * JsVal))
  : list (jsstring * JsVal) :=
  match obj_lookup k ps with
  | Some _ => obj_replace k v ps
  | None =>
      match array_index k with
      | Some i => obj_insert_index i k v ps
      | None => ps ++ [(k, v)]
      end
  end.

(** A JSON value, after optional white space; [parse_elements] reads the
    elements of an array after ["["] up to ["]"], [parse_members] the
    members of an object after ["{"] up to ["}"].  The fuel bounds the
    number of nested calls; [2 * length s + 1] is always enough
    ([parse_value_fuel]). *)
Fixpoint parse_value (fuel : nat) (s : jsstring) : parsed JsVal :=
  match fuel with
  | O => OutOfFuel
  | S fuel' =>
      match skip_ws s with
      | [] => SyntaxError
      | c :: r =>
          if c =? 91 then
            match skip_ws r with
            | d :: r' =>
                if d =? 93 then Parsed (JArr []) r'
                else
                  match parse_elements fuel' r with
                  | Parsed vs rest => Parsed (JArr vs) rest
                  | SyntaxError => SyntaxError
                  | OutOfFuel => OutOfFuel
                  end
            | [] => SyntaxError
            end
          else if c =? 123 then
            match skip_ws r with
            | d :: r' =>
                if d =? 125 then Parsed (JObj []) r'
                else
                  match parse_members fuel' r [] with
                  | Parsed ps rest => Parsed (JObj ps) rest
                  | SyntaxError => SyntaxError
                  | OutOfFuel => OutOfFuel
                  end
            | [] => SyntaxError
            end
          else if c =? 34 then
            match parse_string_chars r with
            | Some (str, rest) => Parsed (JStr str) rest
            | None => SyntaxError
            end
          else if c =? 116 then
            match strip_prefix (lit "rue") r with
            | Some rest => Parsed (JBool true) rest
            | None => SyntaxError
            end
          else if c =? 102 then
            match strip_prefix (lit "alse") r with
            | Some rest => Parsed (JBool false) rest
            | None => SyntaxError
            end
          else if c =? 110 then
            match strip_prefix (lit "ull") r with
            | Some rest => Parsed JNull rest
            | None => SyntaxError
            end
          else
            match parse_number (c :: r) with
            | Some (n, rest) => Parsed (JNum n) rest
            | None => SyntaxError
            end
      end
  end

with parse_elements (fuel : nat) (s : jsstring) : parsed (list JsVal) :=
  match fuel with
  | O => OutOfFuel
  | S fuel' =>
      match parse_value fuel' s with
      | Parsed v rest =>
          match skip_ws rest with
          | c :: r =>
              if c =? 44 then
                match parse_elements fuel' r with
                | Parsed vs rest' => Parsed (v :: vs) rest'
                | SyntaxError => SyntaxError
                | OutOfFuel => OutOfFuel
                end
              else if c =? 93 then Parsed [v] r
              else SyntaxError
          | [] => SyntaxError
          end
      | SyntaxError => SyntaxError
      | OutOfFuel => OutOfFuel
      end
  end

with parse_members (fuel : nat) (s : jsstring) (acc : list (jsstring * JsVal))
  : parsed (list (jsstring * JsVal)) :=
  match fuel with
  | O => OutOfFuel
  | S fuel' =>
      match skip_ws s with
      | q :: r0 =>
          if q =? 34 then
            match parse_string_chars r0 with
            | Some (k, r1) =>
                match skip_ws r1 with
                | colon :: r2 =>
                    if colon =? 58 then
                      match parse_value fuel' r2 with
                      | Parsed v rest =>
                          let acc' := obj_set k v acc in
                          match skip_ws rest with
                          | c :: r =>
                              if c =? 44 then parse_members fuel' r acc'
                              else if c =? 125 then Parsed acc' r
                              else SyntaxError
                          | [] => SyntaxError
                          end
                      | SyntaxError => SyntaxError
                      | OutOfFuel => OutOfFuel
                      end
                    else SyntaxError
                | [] => SyntaxError
                end
            | None => SyntaxError
            end
          else SyntaxError
      | [] => SyntaxError
      end
  end.

(** [JSON.parse(text)]: [None] when it throws a SyntaxError. *)
Definition JSON_parse (text : jsstring) : option JsVal :=
  match parse_value (2 * length text + 1) text with
  | Parsed v rest =>
      match skip_ws rest with
      | [] => Some v
      | _ :: _ => None
      end
  | SyntaxError => None
  | OutOfFuel => None
  end.

(** ** Conversions and property access *)

Inductive exn := TypeError.

(** The completion of an evaluation: a value, or a thrown exception. *)
Inductive completion (A : Type) :=
| Normal (a : A)
| Thrown (e : exn).
Arguments Normal {A} a.
Arguments Thrown {A} e.

(** ToString.  An array joins the strings of its elements, [null] and
    [undefined] counting as empty.  A plain object answers
    ["[object Object]"] through [Object.prototype.toString]; an own
    [toString] property, which coming from JSON is never callable, hides it
    and the conversion throws. *)
Fixpoint to_string (v : JsVal) : completion jsstring :=
  match v with
  | JUndefined => Normal (lit "undefined")
  | JNull => Normal (lit "null")
  | JBool true => Normal (lit "true")
  | JBool false => Normal (lit "false")
  | JNum n => Normal (number_to_string n)
  | JStr s => Normal s
  | JArr l =>
      (fix elems (l : list JsVal) (acc : list jsstring)
         : completion jsstring :=
         match l with
         | [] => Normal (join (lit ",") (rev acc))
         | x :: r =>
             match x with
             | JUndefined | JNull => elems r ([] :: acc)
             | _ =>
                 match to_string x with
                 | Normal s => elems r (s :: acc)
                 | Thrown e => Thrown e
                 end
             end
         end) l []
  | JObj ps =>
      match obj_lookup (lit "toString") ps with
      | Some _ => Thrown TypeError
      | None => Normal (lit "[object Object]")
      end
  end.

(** [v.name] for the property names the script reads ([id], [title],
    [status], [createdAt]): no prototype defines them, so the answer is the
    own property or [undefined]; reading from [null] or [undefined]
    throws. *)
Definition get_prop (v : JsVal) (name : jsstring) : completion JsVal :=
  match v with
  | JUndefined | JNull => Thrown TypeError
  | JObj ps =>
      match obj_lookup name ps with
      | Some x => Normal x
      | None => Normal JUndefined
      end
  | _ => Normal JUndefined
  end.

(** [v !== n] for a number [n]. *)
Definition strict_neq_num (v : JsVal) (n : number) : bool :=
  match v with
  | JNum m => negb (num_eqb m n)
  | _ => true
  end.

(** ** The task record of the data model *)

Record Task := {
  task_id : Z;
  task_title : jsstring;
  task_status : jsstring;
  task_createdAt : jsstring
}.

(** The object literal [{ id, title, status, createdAt }]. *)
Definition task_object (t : Task) : JsVal :=
  JObj [(lit "id", JNum (num_of_Z (task_id t)));
        (lit "title", JStr (task_title t));
        (lit "status", JStr (task_status t));
        (lit "createdAt", JStr (task_createdAt t))].

(** A well-formed task: its id is an integer a Number holds exactly. *)
Definition wf_task (t : Task) : Prop := is_safe_integer (task_id t).

(** ** The page *)

(** A [tr] element, by the markup assigned to its [innerHTML]. *)
Record tr := Tr { markup : jsstring }.

(** The [saveMessage] element. *)
Record MessageBox := {
  textContent : jsstring;
  class_error : bool;
  class_visible : bool
}.

(** What the script does to the world outside its own variables. *)
Inductive Event :=
| EAlert (msg : jsstring)
| ESetItem (key value : jsstring)
| EClearRows
| EAppendRow (row : tr)
| EFetch (url method content_type : jsstring) (body : option jsstring)
| EConsoleError (args : list jsstring)
| EShowMessage (text : jsstring) (is_error : bool)
| ESetTimeout (delay_ms : N)
| EFocusTitle.

Record Page := {
  tasks : list JsVal;
  localStorage : gmap jsstring jsstring;
  taskTitleInput : jsstring;
  taskStatusSelect : jsstring;
  taskTableBody : list tr;
  saveMessage : MessageBox;
  trace : list Event
}.

Definition set_tasks (ts : list JsVal) (p : Page) : Page :=
  {| tasks := ts; localStorage := localStorage p;
     taskTitleInput := taskTitleInput p; taskStatusSelect := taskStatusSelect p;
     taskTableBody := taskTableBody p; saveMessage := saveMessage p;
     trace := trace p |}.

Definition set_localStorage (m : gmap jsstring jsstring) (p : Page) : Page :=
  {| tasks := tasks p; localStorage := m;
     taskTitleInput := taskTitleInput p; taskStatusSelect := taskStatusSelect p;
     taskTableBody := taskTableBody p; saveMessage := saveMessage p;
     trace := trace p |}.

Definition set_taskTitleInput (s : jsstring) (p : Page) : Page :=
  {| tasks := tasks p; localStorage := localStorage p;
     taskTitleInput := s; taskStatusSelect := taskStatusSelect p;
     taskTableBody := taskTableBody p; saveMessage := saveMessage p;
     trace := trace p |}.

Definition set_taskTableBody (rows : list tr) (p : Page) : Page :=
  {| tasks := tasks p; localStorage := localStorage p;
     taskTitleInput := taskTitleInput p; taskStatusSelect := taskStatusSelect p;
     taskTableBody := rows; saveMessage := saveMessage p;
     trace := trace p |}.

Definition set_saveMessage (b : MessageBox) (p : Page) : Page :=
  {| tasks := tasks p; localStorage := localStorage p;
     taskTitleInput := taskTitleInput p; taskStatusSelect := taskStatusSelect p;
     taskTableBody := taskTableBody p; saveMessage := b;
     trace := trace p |}.

Definition add_event (e : Event) (p : Page) : Page :=
  {| tasks := tasks p; localStorage := localStorage p;
     taskTitleInput := taskTitleInput p; taskStatusSelect := taskStatusSelect p;
     taskTableBody := taskTableBody p; saveMessage := saveMessage p;
     trace := trace p ++ [e] |}.

(** ** Computations on the page *)

Definition M (A : Type) : Type := Page -> completion A * Page.

Definition ret {A} (a : A) : M A := fun p => (Normal a, p).

Definition bind {A B} (m : M A) (k : A -> M B) : M B :=
  fun p =>
    match m p with
    | (Normal a, p') => k a p'
    | (Thrown e, p') => (Thrown e, p')
    end.

Notation "x <- m ;; k" := (bind m (fun x => k))
  (at level 100, m at next level, right associativity).
Notation "m ;;; k" := (bind m (fun _ => k))
  (at level 100, right associativity).

Definition lift {A} (c : completion A) : M A := fun p => (c, p).

Definition get : M Page := fun p => (Normal p, p).

Definition modify (f : Page -> Page) : M unit := fun p => (Normal tt, f p).

Definition emit (e : Event) : M unit := modify (add_event e).

(** [try { m } catch (error) { h error }] *)
Definition try_catch {A} (m : M A) (h : exn -> M A) : M A :=
  fun p =>
    match m p with
    | (Normal a, p') => (Normal a, p')
    | (Thrown e, p') => h e p'
    end.

(** ** The script *)

Definition API_URL : jsstring :=
  lit "https://script.google.com/macros/s/AKfycbxBURsevVjpayeyJoumk24TG5x624E9eN2E0dERVWapSZEoKKfyDZRRN_8TcQhLlmIQ/exec".

Definition STORAGE_KEY : jsstring := lit "tasks".

(** [localStorage.getItem(key)]: [None] is [null]. *)
Definition getItem (key : jsstring) : M (option jsstring) :=
  p <- get ;; ret (localStorage p !! key).

(** [localStorage.setItem(key, value)] *)
Definition setItem (key value : jsstring) : M unit :=
  modify (fun p => set_localStorage (<[key := value]> (localStorage p)) p) ;;;
  emit (ESetItem key value).

(** [loadTasks()]: a missing or empty item, text that does not parse and a
    parsed value that is not an array all give the empty array. *)
Definition loadTasks : M (list JsVal) :=
  saved <- getItem STORAGE_KEY ;;
  match saved with
  | None => ret []
  | Some [] => ret []
  | Some text =>
      match JSON_parse text with
      | Some (JArr parsed) => ret parsed
      | Some _ => ret []
      | None => ret []
      end
  end.

(** [saveTasks()] *)
Definition saveTasks : M unit :=
  p <- get ;;
  match JSON_stringify (JArr (tasks p)) with
  | Some text => setItem STORAGE_KEY text
  | None => setItem STORAGE_KEY (lit "undefined")
  end.

(** *** escapeHtml *)

(** The children the [innerText] setter gives an element. *)
Inductive Node :=
| Text (data : jsstring)
| Br.

Definition add_unit (c : N) (nodes : list Node) : list Node :=
  match nodes with
  | Text t :: ns => Text (c :: t) :: ns
  | _ => Text [c] :: nodes
  end.

(** The [innerText] setter: every run of characters other than CR and LF
    becomes a text node, every CR LF, CR or LF a [br] element. *)
Fixpoint set_innerText (s : jsstring) : list Node :=
  match s with
  | [] => []
  | c :: r =>
      if c =? 13 then
        match r with
        | d :: r' =>
            if d =? 10 then Br :: set_innerText r' else Br :: set_innerText r
        | [] => [Br]
        end
      else if c =? 10 then Br :: set_innerText r
      else add_unit c (set_innerText r)
  end.

(** Escaping a string of a text node, as the HTML fragment serialization
    does. *)
Definition escape_unit (c : N) : jsstring :=
  if c =? 38 then lit "&amp;"
  else if c =? 160 then lit "&nbsp;"
  else if c =? 60 then lit "&lt;"
  else if c =? 62 then lit "&gt;"
  else [c].

Definition serialize_node (n : Node) : jsstring :=
  match n with
  | Text data => flat_map escape_unit data
  | Br => lit "<br>"
  end.

(** The [innerHTML] getter on those children. *)
Definition get_innerHTML (nodes : list Node) : jsstring :=
  flat_map serialize_node nodes.

(** The value a DOMString attribute that treats [null] as empty takes. *)
Definition to_dom_string (v : JsVal) : completion jsstring :=
  match v with
  | JNull => Normal []
  | _ => to_string v
  end.

(** [escapeHtml(text)] on a string. *)
Definition escape_text (text : jsstring) : jsstring :=
  get_innerHTML (set_innerText text).

(** [escapeHtml(text)] *)
Definition escapeHtml (text : JsVal) : M jsstring :=
  s <- lift (to_dom_string text) ;;
  ret (escape_text s).

(** *** The view *)

Definition dquote : jsstring := [34].

(** The markup of the placeholder row. *)
Definition empty_row_markup : jsstring :=
  lit "<td colspan=" ++ dquote ++ lit "4" ++ dquote ++ lit " class=" ++
  dquote ++ lit "empty-row" ++ dquote ++
  lit ">No tasks yet. Add one above.</td>".

(** The template literal of a task row, with its four substitutions. *)
Definition row_markup (title status createdAt id : jsstring) : jsstring :=
  [10] ++ lit "      <td>" ++ title ++ lit "</td>" ++
  [10] ++ lit "      <td>" ++ status ++ lit "</td>" ++
  [10] ++ lit "      <td>" ++ createdAt ++ lit "</td>" ++
  [10] ++ lit "      <td><button class=" ++ dquote ++ lit "delete-btn" ++
  dquote ++ lit " data-id=" ++ dquote ++ id ++ dquote ++
  lit ">Delete</button></td>" ++
  [10] ++ lit "    ".

(** [taskTableBody.appendChild(row)] *)
Definition appendChild (row : tr) : M unit :=
  modify (fun p => set_taskTableBody (taskTableBody p ++ [row]) p) ;;;
  emit (EAppendRow row).

(** The body of the [forEach] callback of [renderTasks]. *)
Definition render_row (task : JsVal) : M unit :=
  title <- lift (get_prop task (lit "title")) ;;
  etitle <- escapeHtml title ;;
  status <- lift (get_prop task (lit "status")) ;;
  sstatus <- lift (to_string status) ;;
  createdAt <- lift (get_prop task (lit "createdAt")) ;;
  screatedAt <- lift (to_string createdAt) ;;
  id <- lift (get_prop task (lit "id")) ;;
  sid <- lift (to_string id) ;;
  appendChild (Tr (row_markup etitle sstatus screatedAt sid)).

Fixpoint render_rows (ts : list JsVal) : M unit :=
  match ts with
  | [] => ret tt
  | task :: r => render_row task ;;; render_rows r
  end.

(** [renderTasks()].  The click handlers it attaches to the delete buttons
    call [deleteTask] with the number read back from [data-id]. *)
Definition renderTasks : M unit :=
  modify (set_taskTableBody []) ;;;
  emit EClearRows ;;;
  p <- get ;;
  match tasks p with
  | [] => appendChild (Tr empty_row_markup)
  | _ :: _ => render_rows (tasks p)
  end.

(** *** The sync adapter (direct POST) *)

(** [showSaveMessage(messageText, isError)] *)
Definition showSaveMessage (messageText : jsstring) (isError : bool) : M unit :=
  modify (set_saveMessage
            {| textContent := messageText; class_error := isError;
               class_visible := true |}) ;;;
  emit (EShowMessage messageText isError) ;;;
  emit (ESetTimeout 1800).

(** The callback [showSaveMessage] hands to [setTimeout]. *)
Definition saveMessage_timeout : M unit :=
  modify (fun p =>
            set_saveMessage
              {| textContent := textContent (saveMessage p);
                 class_error := class_error (saveMessage p);
                 class_visible := false |} p).

Definition could_not_save : jsstring :=
  lit "Could not save to Sheet. Please try again.".

(** [sendTaskToSheet(task)] up to its first [await]: the request is handed
    to [fetch].  An exception inside the [try] block is caught there. *)
Definition sendTaskToSheet (task : JsVal) : M unit :=
  try_catch
    (title <- lift (get_prop task (lit "title")) ;;
     status <- lift (get_prop task (lit "status")) ;;
     emit (EFetch API_URL (lit "POST") (lit "text/plain;charset=utf-8")
             (JSON_stringify
                (JObj [(lit "title", title); (lit "status", status)]))))
    (fun error =>
       emit (EConsoleError [lit "Could not save to Google Sheet:"; lit "TypeError"]) ;;;
       showSaveMessage could_not_save true).

(** How a request ends: the promise of [fetch] rejects, or it resolves to a
    response whose body reads as text, or to one whose body fails to
    read. *)
Inductive FetchOutcome :=
| Rejected (error : jsstring)
| Responded (status : N) (text : jsstring)
| RespondedUnreadable (status : N) (error : jsstring).

(** [response.ok] *)
Definition response_ok (status : N) : bool := (200 <=? status) && (status <=? 299).

(** The rest of [sendTaskToSheet], run when the request has ended. *)
Definition sendTaskToSheet_resume (o : FetchOutcome) : M unit :=
  match o with
  | Rejected error =>
      emit (EConsoleError [lit "Could not save to Google Sheet:"; error]) ;;;
      showSaveMessage could_not_save true
  | Responded status text =>
      if response_ok status then showSaveMessage (lit "Saved to Sheet") false
      else
        emit (EConsoleError
                [lit "Could not save to Google Sheet (HTTP " ++
                 digits status ++ lit "):"; text]) ;;;
        showSaveMessage could_not_save true
  | RespondedUnreadable status error =>
      if response_ok status then showSaveMessage (lit "Saved to Sheet") false
      else
        emit (EConsoleError [lit "Could not save to Google Sheet:"; error]) ;;;
        showSaveMessage could_not_save true
  end.

(** *** The store *)

(** [tasks.filter((task) => task.id !== taskId)] *)
Fixpoint filter_tasks (taskId : number) (ts : list JsVal)
  : completion (list JsVal) :=
  match ts with
  | [] => Normal []
  | task :: r =>
      match get_prop task (lit "id") with
      | Thrown e => Thrown e
      | Normal v =>
          match filter_tasks taskId r with
          | Thrown e => Thrown e
          | Normal r' =>
              Normal (if strict_neq_num v taskId then task :: r' else r')
          end
      end
  end.

(** [deleteTask(taskId)] *)
Definition deleteTask (taskId : number) : M unit :=
  p <- get ;;
  ts <- lift (filter_tasks taskId (tasks p)) ;;
  modify (set_tasks ts) ;;;
  saveTasks ;;;
  renderTasks.

(** [addTask()], with the two readings of the clock it makes: [now] is
    [Date.now()] and [locale_now] is [new Date().toLocaleString()].  The
    value of the call is [undefined] on both paths: the early [return;] and
    the end of the body. *)
Definition addTask (now : Z) (locale_now : jsstring) : M JsVal :=
  p <- get ;;
  let title := trim (taskTitleInput p) in
  let status := taskStatusSelect p in
  match title with
  | [] =>
      emit (EAlert (lit "Please enter a task title.")) ;;;
      ret JUndefined
  | _ :: _ =>
      let newTask :=
        JObj [(lit "id", JNum (num_of_Z now));
              (lit "title", JStr title);
              (lit "status", JStr status);
              (lit "createdAt", JStr locale_now)] in
      modify (fun p => set_tasks (tasks p ++ [newTask]) p) ;;;
      saveTasks ;;;
      renderTasks ;;;
      sendTaskToSheet newTask ;;;
      modify (set_taskTitleInput []) ;;;
      emit EFocusTitle ;;;
      ret JUndefined
  end.

(** The top level of the script: [let tasks = loadTasks(); renderTasks();]. *)
Definition init : M unit :=
  ts <- loadTasks ;;
  modify (set_tasks ts) ;;;
  renderTasks.

(** A page before the script runs. *)
Definition blank_page (storage : gmap jsstring jsstring)
    (title status : jsstring) : Page :=
  {| tasks := []; localStorage := storage;
     taskTitleInput := title; taskStatusSelect := status;
     taskTableBody := [];
     saveMessage := {| textContent := []; class_error := false;
                       class_visible := false |};
     trace := [] |}.

(** ** Notions the statements use *)

(** The persisted layout of one task:
    [{id: integer, title: string, status: string, createdAt: string}]. *)
Definition is_task_record (v : JsVal) : bool :=
  match v with
  | JObj ps =>
      match obj_lookup (lit "id") ps, obj_lookup (lit "title") ps,
            obj_lookup (lit "status") ps, obj_lookup (lit "createdAt") ps with
      | Some (JNum (Num _ O)), Some (JStr _), Some (JStr _), Some (JStr _) =>
          true
      | _, _, _, _ => false
      end
  | _ => false
  end.

(** A sequence of task records. *)
Definition is_task_sequence (v : JsVal) : bool :=
  match v with
  | JArr l => forallb is_task_record l
  | _ => false
  end.

(** The text of the JSON object [{title, status}]. *)
Definition title_status_json (title status : jsstring) : jsstring :=
  lit "{" ++ quote (lit "title") ++ lit ":" ++ quote title ++ lit "," ++
  quote (lit "status") ++ lit ":" ++ quote status ++ lit "}".

(** The text of the JSON object of a task. *)
Definition task_json (t : Task) : jsstring :=
  lit "{" ++ quote (lit "id") ++ lit ":" ++
  number_to_string (num_of_Z (task_id t)) ++ lit "," ++
  quote (lit "title") ++ lit ":" ++ quote (task_title t) ++ lit "," ++
  quote (lit "status") ++ lit ":" ++ quote (task_status t) ++ lit "," ++
  quote (lit "createdAt") ++ lit ":" ++ quote (task_createdAt t) ++ lit "}".

(** The text [saveTasks] stores for an array of tasks. *)
Definition tasks_json (l : list JsVal) : jsstring :=
  match JSON_stringify (JArr l) with
  | Some text => text
  | None => lit "undefined"
  end.

(** The page after [saveTasks]. *)
Definition saved (p : Page) : Page :=
  add_event (ESetItem STORAGE_KEY (tasks_json (tasks p)))
    (set_localStorage (<[STORAGE_KEY := tasks_json (tasks p)]> (localStorage p)) p).

(** The row [renderTasks] draws for a task. *)
Definition task_row (t : Task) : tr :=
  Tr (row_markup (escape_text (task_title t)) (task_status t)
        (task_createdAt t) (number_to_string (num_of_Z (task_id t)))).

Definition is_placeholder (row : tr) : bool := str_eqb (markup row) empty_row_markup.

(** The rows of the table body that stand for tasks. *)
Definition task_rows (rows : list tr) : list tr :=
  List.filter (fun row => negb (is_placeholder row)) rows.

Definition is_fetch_event (e : Event) : bool :=
  match e with
  | EFetch _ _ _ _ => true
  | _ => false
  end.

(** The text an HTML parser gives a table cell whose markup is made of
    plain characters, the four character references the serializer writes,
    and [<br>] tags: the characters themselves, the character a reference
    names, and a line feed for each [br] element; U+0000 is dropped, as the
    tree builder does inside a cell.  The answer is [None] for markup with
    anything else in it: any other ["<"], which opens a tag, any other
    ["&"], or a raw line end. *)
Fixpoint cell_text (m : jsstring) : option jsstring :=
  match m with
  | [] => Some []
  | c :: r =>
      if c =? 60 then
        match r with
        | x1 :: x2 :: x3 :: r3 =>
            if str_eqb [x1; x2; x3] (lit "br>") then
              option_map (cons 10) (cell_text r3)
            else None
        | _ => None
        end
      else if c =? 38 then
        match r with
        | x1 :: x2 :: x3 :: r3 =>
            if str_eqb [x1; x2; x3] (lit "lt;") then
              option_map (cons 60) (cell_text r3)
            else if str_eqb [x1; x2; x3] (lit "gt;") then
              option_map (cons 62) (cell_text r3)
            else
              match r3 with
              | x4 :: r4 =>
                  if str_eqb [x1; x2; x3; x4] (lit "amp;") then
                    option_map (cons 38) (cell_text r4)
                  else
                    match r4 with
                    | x5 :: r5 =>
                        if str_eqb [x1; x2; x3; x4; x5] (lit "nbsp;") then
                          option_map (cons 160) (cell_text r5)
                        else None
                    | [] => None
                    end
              | [] => None
              end
        | _ => None
        end
      else if (c =? 13) || (c =? 10) then None
      else if c =? 0 then cell_text r
      else option_map (cons c) (cell_text r)
  end.

(** The text a title shows as: its characters, with every CR LF, CR or LF
    as one line feed, and without U+0000. *)
Fixpoint shown_text (s : jsstring) : jsstring :=
  match s with
  | [] => []
  | c :: r =>
      if c =? 13 then
        match r with
        | d :: r' => if d =? 10 then 10 :: shown_text r' else 10 :: shown_text r
        | [] => [10]
        end
      else if c =? 0 then shown_text r
      else c :: shown_text r
  end.

(** The fields [load] gives back are those of the task. *)
Definition same_fields (v : JsVal) (t : Task) : Prop :=
  get_prop v (lit "id") = Normal (JNum (num_of_Z (task_id t))) /\
  get_prop v (lit "title") = Normal (JStr (task_title t)) /\
  get_prop v (lit "status") = Normal (JStr (task_status t)) /\
  get_prop v (lit "createdAt") = Normal (JStr (task_createdAt t)).

(** A task to try the statements on. *)
Definition example_task : Task :=
  {| task_id := 1762112345678; task_title := lit "Buy milk";
     task_status := lit "pending";
     task_createdAt := lit "11/2/2026, 8:34:00 PM" |}.

(** The page after [taskTableBody.innerHTML] has been emptied. *)
Definition cleared (p : Page) : Page := add_event EClearRows (set_taskTableBody [] p).

(** The page after [rows] have been appended to the table body, one by
    one. *)
Definition appended (rows : list tr) (p : Page) : Page :=
  {| tasks := tasks p; localStorage := localStorage p;
     taskTitleInput := taskTitleInput p; taskStatusSelect := taskStatusSelect p;
     taskTableBody := taskTableBody p ++ rows; saveMessage := saveMessage p;
     trace := trace p ++ List.map EAppendRow rows |}.

(** The rows of a list of tasks: the placeholder for none. *)
Definition rows_of (ts : list Task) : list tr :=
  match ts with
  | [] => [Tr empty_row_markup]
  | _ :: _ => List.map task_row ts
  end.

(** The request [sendTaskToSheet] hands to [fetch] for a title and a
    status. *)
Definition sheet_request (title status : jsstring) : Event :=
  EFetch API_URL (lit "POST") (lit "text/plain;charset=utf-8")
    (Some (title_status_json title status)).

(** The task [addTask] builds. *)
Definition new_task (now : Z) (locale_now : jsstring) (p : Page) : Task :=
  {| task_id := now; task_title := trim (taskTitleInput p);
     task_status := taskStatusSelect p; task_createdAt := locale_now |}.

(** The page after [showSaveMessage(text, isError)]. *)
Definition message_shown (text : jsstring) (isError : bool) (p : Page) : Page :=
  add_event (ESetTimeout 1800)
    (add_event (EShowMessage text isError)
       (set_saveMessage {| textContent := text; class_error := isError;
                           class_visible := true |} p)).

(** [t] is [s] without the white space at its two ends. *)
Definition trimmed_of (s t : jsstring) : Prop :=
  (exists a b, s = a ++ t ++ b /\
               forallb is_js_space a = true /\ forallb is_js_space b = true) /\
  match t with
  | [] => True
  | c :: _ => is_js_space c = false /\ is_js_space (List.last t c) = false
  end.

(** The tasks that stay when the id [z] is removed. *)
Definition without_id (z : Z) (ts : list Task) : list Task :=
  List.filter (fun t => negb (task_id t =? z)%Z) ts.

(** A page to try the statements on. *)
Definition example_page : Page :=
  blank_page ∅ (lit "  Buy milk ") (lit "pending").

(** One step of reading a decimal numeral from the left. *)
Definition digit_step (a c : N) : N := 10 * a + (c - 48).

(** What may follow a numeral: anything but a digit, a point or an
    exponent mark. *)
Definition ends_numeral (rest : jsstring) : bool :=
  match rest with
  | [] => true
  | c :: _ => negb (is_digit c || (c =? 46) || (c =? 101) || (c =? 69))
  end.

(** ** The listeners *)

Definition set_taskStatusSelect (s : jsstring) (p : Page) : Page :=
  {| tasks := tasks p; localStorage := localStorage p;
     taskTitleInput := taskTitleInput p; taskStatusSelect := s;
     taskTableBody := taskTableBody p; saveMessage := saveMessage p;
     trace := trace p |}.

(** The [keydown] listener of the title input: [addTask] on Enter, nothing
    on any other key. *)
Definition title_keydown (key : jsstring) (now : Z) (locale_now : jsstring)
  : M unit :=
  if str_eqb key (lit "Enter") then addTask now locale_now ;;; ret tt
  else ret tt.

(** A task list in which every element is a task record, drawn in the
    table. *)
Definition shown (p : Page) : Prop :=
  exists ts, tasks p = List.map task_object ts /\ taskTableBody p = rows_of ts.

(** The stored item holds what [saveTasks] writes for the list in memory. *)
Definition stored (p : Page) : Prop :=
  localStorage p !! STORAGE_KEY = Some (tasks_json (tasks p)).

(** A piece of escaped text: the tag of a line break, one of the four
    character references, or one character that is none of ["<"], [">"]
    and ["&"]. *)
Definition escaped_piece (x : jsstring) : Prop :=
  x = lit "<br>" \/ x = lit "&amp;" \/ x = lit "&lt;" \/ x = lit "&gt;" \/
  x = lit "&nbsp;" \/
  exists c, x = [c] /\ c <> 60 /\ c <> 62 /\ c <> 38.

(** A character [escapeHtml] passes through as it is. *)
Definition is_plain_unit (c : N) : bool :=
  negb ((c =? 38) || (c =? 160) || (c =? 60) || (c =? 62) || (c =? 13) || (c =? 10)).

(** *** Number(string) *)

(** What [Number] makes of a string: a number of the model, NaN, or an
    infinity. *)
Inductive NumberResult :=
| Finite (n : number)
| NotANumber
| Infinite.

Definition is_hex_digit (c : N) : bool :=
  match hex_val c with
  | Some _ => true
  | None => false
  end.

Definition is_octal_digit (c : N) : bool := (48 <=? c) && (c <=? 55).

Definition is_binary_digit (c : N) : bool := (c =? 48) || (c =? 49).

(** The value of the digits [ds] in the given radix. *)
Definition radix_value (radix : N) (ds : jsstring) : N :=
  fold_left (fun a c => radix * a + match hex_val c with
                                    | Some d => d
                                    | None => 0
                                    end) ds 0.

Definition radix_literal (radix : N) (is_d : N -> bool) (ds : jsstring)
  : NumberResult :=
  match ds with
  | [] => NotANumber
  | _ :: _ =>
      if forallb is_d ds then Finite (num_of_Z (Z.of_N (radix_value radix ds)))
      else NotANumber
  end.

(** A literal with the prefix [0x], [0o] or [0b], in either case: [None]
    when the string has no such prefix. *)
Definition nondecimal_literal (t : jsstring) : option NumberResult :=
  match t with
  | z :: x :: ds =>
      if z =? 48 then
        if (x =? 120) || (x =? 88) then Some (radix_literal 16 is_hex_digit ds)
        else if (x =? 111) || (x =? 79) then Some (radix_literal 8 is_octal_digit ds)
        else if (x =? 98) || (x =? 66) then Some (radix_literal 2 is_binary_digit ds)
        else None
      else None
  | _ => None
  end.

(** A decimal literal: an optional sign; then [Infinity], or digits with an
    optional point and more digits, or a point and digits; then an optional
    exponent; and nothing after it. *)
Definition decimal_literal (t : jsstring) : NumberResult :=
  let (neg, t1) := exp_sign t in
  if str_eqb t1 (lit "Infinity") then Infinite
  else
    let (i, r1) := span_digits t1 in
    let (f, r2) :=
      match r1 with
      | c :: r => if c =? 46 then span_digits r else ([], r1)
      | [] => ([], r1)
      end in
    match i ++ f with
    | [] => NotANumber
    | _ :: _ =>
        match exp_part r2 with
        | Some (e, []) => Finite (numeral_value neg i f e)
        | _ => NotANumber
        end
    end.

(** [Number(s)] for a string [s] (StringToNumber): white space at the two
    ends is dropped, the empty string is zero. *)
Definition string_to_number (s : jsstring) : NumberResult :=
  match trim s with
  | [] => Finite (num_of_Z 0)
  | t =>
      match nondecimal_literal t with
      | Some r => r
      | None => decimal_literal t
      end
  end.

(** [tasks.filter((task) => task.id !== taskId)] for a [taskId] that is NaN
    or an infinity: it differs from the id of every task, so every element
    is kept once its [id] has been read. *)
Fixpoint filter_tasks_unequal (ts : list JsVal) : completion (list JsVal) :=
  match ts with
  | [] => Normal []
  | task :: r =>
      match get_prop task (lit "id") with
      | Thrown e => Thrown e
      | Normal _ =>
          match filter_tasks_unequal r with
          | Thrown e => Thrown e
          | Normal r' => Normal (task :: r')
          end
      end
  end.

(** [deleteTask(taskId)] for such a [taskId]. *)
Definition deleteTask_unequal : M unit :=
  p <- get ;;
  ts <- lift (filter_tasks_unequal (tasks p)) ;;
  modify (set_tasks ts) ;;;
  saveTasks ;;;
  renderTasks.

(** The [click] listener [renderTasks] gives a delete button, for the value
    [data_id] of the attribute [data-id] of the button:
    [deleteTask(Number(button.dataset.id))]. *)
Definition delete_click (data_id : jsstring) : M unit :=
  match string_to_number data_id with
  | Finite taskId => deleteTask taskId
  | NotANumber | Infinite => deleteTask_unequal
  end.

(** *** The events of the page *)

(** What can happen on the page once the script has run: the user edits the
    title or picks a status (no listener), clicks the add button, presses a
    key in the title input, clicks a delete button; a request ends; the
    timer of the message runs.  The clock readings of [addTask] come with
    the events that call it. *)
Inductive UiEvent :=
| TitleEdit (text : jsstring)
| StatusPick (value : jsstring)
| AddClick (now : Z) (locale_now : jsstring)
| TitleKeydown (key : jsstring) (now : Z) (locale_now : jsstring)
| DeleteClick (data_id : jsstring)
| FetchEnd (o : FetchOutcome)
| MessageTimeout.

(** The listener an event runs. *)
Definition dispatch (e : UiEvent) : M unit :=
  match e with
  | TitleEdit text => modify (set_taskTitleInput text)
  | StatusPick value => modify (set_taskStatusSelect value)
  | AddClick now locale_now => addTask now locale_now ;;; ret tt
  | TitleKeydown key now locale_now => title_keydown key now locale_now
  | DeleteClick data_id => delete_click data_id
  | FetchEnd o => sendTaskToSheet_resume o
  | MessageTimeout => saveMessage_timeout
  end.

(** A sequence of events, each listener run to its end on the page the one
    before left: the completions of the listeners and the last page.  An
    exception ends its listener, not the sequence. *)
Fixpoint play (es : list UiEvent) (p : Page) : list (completion unit) * Page :=
  match es with
  | [] => ([], p)
  | e :: r =>
      let (c, q) := dispatch e p in
      let (cs, q') := play r q in
      (c :: cs, q')
  end.

(** The clock readings of an event are safe integers, as those of
    [Date.now()] are. *)
Definition clock_ok (e : UiEvent) : Prop :=
  match e with
  | AddClick now _ | TitleKeydown _ now _ => is_safe_integer now
  | _ => True
  end.

(** Memory, table and stored item agree: every element of the list in
    memory is a well-formed task record, the table shows the list, and
    loading the stored item gives the list. *)
Definition consistent (p : Page) : Prop :=
  exists ts,
    Forall wf_task ts /\ tasks p = List.map task_object ts /\
    taskTableBody p = rows_of ts /\
    fst (loadTasks p) = Normal (tasks p).

(** A listener either leaves the task list and the stored items alone, or
    writes the text of the task list under the key of the script. *)
Definition store_step (p q : Page) : Prop :=
  (tasks q = tasks p /\ localStorage q = localStorage p) \/
  localStorage q = <[STORAGE_KEY := tasks_json (tasks q)]> (localStorage p).

(** Events to try the statements on. *)
Definition example_events : list UiEvent :=
  [AddClick 1762112345678 (lit "now"); TitleEdit (lit "Walk dog");
   TitleKeydown (lit "Enter") 1762112345999 (lit "later");
   FetchEnd (Responded 200 []); DeleteClick (lit "1762112345678");
   MessageTimeout].

(** *** The sync adapter (hidden form) *)

Definition FORM_ACTION_URL : jsstring :=
  lit "https://docs.google.com/forms/d/e/1FAIpQLScsdeU43nyVwOM3sSS5P9dJqUk8si9mllRXauGETi-gVAgP7Q/formResponse".

(** What one call of [sendTaskToGoogleForm] creates and its listeners
    share: the iframe and the form with its hidden inputs, whether each is
    in [document.body], the variable [hasSubmitted], and whether
    [form.submit()] has sent the form. *)
Record Transfer := {
  iframe_name : jsstring;
  form_action : jsstring;
  form_method : jsstring;
  form_target : jsstring;
  form_inputs : list (jsstring * jsstring);
  form_in_body : bool;
  iframe_in_body : bool;
  hasSubmitted : bool;
  form_sent : bool
}.

(** [cleanup()]: [form.remove(); iframe.remove();] *)
Definition cleanup (tr : Transfer) : Transfer :=
  {| iframe_name := iframe_name tr; form_action := form_action tr;
     form_method := form_method tr; form_target := form_target tr;
     form_inputs := form_inputs tr;
     form_in_body := false; iframe_in_body := false;
     hasSubmitted := hasSubmitted tr; form_sent := form_sent tr |}.

(** [sendTaskToGoogleForm(task)], with the clock reading [now] of the
    iframe name and with whether [form.submit()] throws. *)
Definition sendTaskToGoogleForm (now : Z) (submit_throws : bool) (task : JsVal)
  : M Transfer :=
  let name := lit "google-form-target-" ++ number_to_string (num_of_Z now) in
  title <- lift (get_prop task (lit "title")) ;;
  status <- lift (get_prop task (lit "status")) ;;
  createdAt <- lift (get_prop task (lit "createdAt")) ;;
  v1 <- lift (to_dom_string title) ;;
  v2 <- lift (to_dom_string status) ;;
  v3 <- lift (to_dom_string createdAt) ;;
  let tr :=
    {| iframe_name := name; form_action := FORM_ACTION_URL;
       form_method := lit "POST"; form_target := name;
       form_inputs := [(lit "entry.1486922306", v1);
                       (lit "entry.1852717744", v2);
                       (lit "entry.1431330731", v3)];
       form_in_body := true; iframe_in_body := true;
       hasSubmitted := true; form_sent := negb submit_throws |} in
  if submit_throws then
    emit (EConsoleError [lit "Could not save to Google Sheet:"; lit "Error"]) ;;;
    showSaveMessage (lit "Could not save") true ;;;
    ret (cleanup tr)
  else
    emit (ESetTimeout 700) ;;;
    ret tr.

(** The [load] listener of the iframe. *)
Definition iframe_load (tr : Transfer) : M Transfer :=
  if hasSubmitted tr then
    showSaveMessage (lit "Saved to Google Sheet") false ;;;
    ret (cleanup tr)
  else ret tr.

(** The [error] listener of the iframe. *)
Definition iframe_error (tr : Transfer) : M Transfer :=
  showSaveMessage (lit "Could not save") true ;;;
  ret (cleanup tr).

(** The callback of the timer of 700 ms. *)
Definition submit_timeout (tr : Transfer) : M Transfer :=
  if form_in_body tr || iframe_in_body tr then
    showSaveMessage (lit "Saved to Google Sheet") false ;;;
    ret (cleanup tr)
  else ret tr.

(** The transfer [sendTaskToGoogleForm] sets up for a task record at the
    clock reading [now], before [form.submit()]. *)
Definition transfer_of (now : Z) (t : Task) : Transfer :=
  {| iframe_name := lit "google-form-target-" ++ number_to_string (num_of_Z now);
     form_action := FORM_ACTION_URL; form_method := lit "POST";
     form_target := lit "google-form-target-" ++ number_to_string (num_of_Z now);
     form_inputs := [(lit "entry.1486922306", task_title t);
                     (lit "entry.1852717744", task_status t);
                     (lit "entry.1431330731", task_createdAt t)];
     form_in_body := true; iframe_in_body := true;
     hasSubmitted := true; form_sent := true |}.

(** * Properties *)


(** ** Lexical functions consume their input *)

Lemma skip_ws_length (s : jsstring) : (length (skip_ws s) <= length s)%nat.
Proof.
  induction s as [|c r IH]; simpl; [lia|].
  destruct (is_json_ws c); simpl; lia.
Qed.

Lemma span_digits_length (s ds r : jsstring) :
  span_digits s = (ds, r) -> (length r <= length s)%nat.
Proof.
  revert ds r. induction s as [|c s IH]; simpl; intros ds r H.
  - inversion H; subst; simpl; lia.
  - destruct (is_digit c).
    + destruct (span_digits s) as [ds' r'] eqn:E. inversion H; subst.
      specialize (IH _ _ eq_refl). lia.
    + inversion H; subst; simpl; lia.
Qed.

Lemma strip_prefix_length (w s r : jsstring) :
  strip_prefix w s = Some r -> (length r <= length s)%nat.
Proof.
  revert s r. induction w as [|x w IH]; simpl; intros s r H.
  - inversion H; subst; lia.
  - destruct s as [|y s]; [discriminate|].
    destruct (x =? y); [|discriminate]. apply IH in H. simpl; lia.
Qed.

Lemma cons_unit_inv (c : N) (p : option (jsstring * jsstring)) (str r : jsstring) :
  cons_unit c p = Some (str, r) ->
  exists str', p = Some (str', r) /\ str = c :: str'.
Proof.
  destruct p as [[str' r']|]; simpl; [|discriminate].
  intros H; inversion H; subst; eauto.
Qed.

Lemma parse_string_chars_length (s str r : jsstring) :
  parse_string_chars s = Some (str, r) -> (length r < length s)%nat.
Proof.
  remember (length s) as n eqn:Hn.
  assert (Hle : (length s <= n)%nat) by lia. clear Hn.
  revert s str r Hle. induction n as [|n IH]; intros s str r Hle H.
  - destruct s; simpl in *; [discriminate | lia].
  - destruct s as [|c s]; [discriminate|]. simpl in H, Hle.
    destruct (c =? 34).
    { inversion H; subst; simpl; lia. }
    destruct (c =? 92).
    { destruct s as [|e r1]; [discriminate|].
      destruct (e =? 117).
      - destruct r1 as [|h1 [|h2 [|h3 [|h4 r2]]]]; try discriminate.
        destruct (hex4_val h1 h2 h3 h4); [|discriminate].
        apply cons_unit_inv in H as (str' & H & _).
        apply IH in H; simpl in *; lia.
      - destruct (unescape e); [|discriminate].
        apply cons_unit_inv in H as (str' & H & _).
        apply IH in H; simpl in *; lia. }
    destruct (c <? 32); [discriminate|].
    apply cons_unit_inv in H as (str' & H & _).
    apply IH in H; simpl in *; lia.
Qed.

Lemma minus_sign_length (s : jsstring) :
  (length (snd (minus_sign s)) <= length s)%nat.
Proof.
  destruct s as [|c r]; simpl; [lia|]. destruct (c =? 45); simpl; lia.
Qed.

Lemma int_part_length (s i r : jsstring) :
  int_part s = Some (i, r) -> (length r < length s)%nat.
Proof.
  destruct s as [|c s']; [discriminate|]. cbn [int_part length].
  destruct (c =? 48).
  - intros H; inversion H; subst; lia.
  - destruct (is_digit c); [|discriminate].
    destruct (span_digits s') as [ds r'] eqn:E. intros H; inversion H; subst.
    apply span_digits_length in E. lia.
Qed.

Lemma frac_part_length (s f r : jsstring) :
  frac_part s = Some (f, r) -> (length r <= length s)%nat.
Proof.
  destruct s as [|c s']; [intros H; inversion H; subst; lia|].
  cbn [frac_part length]. destruct (c =? 46).
  - destruct (span_digits s') as [fd r'] eqn:E. destruct fd; [discriminate|].
    intros H; inversion H; subst. apply span_digits_length in E. lia.
  - intros H; inversion H; subst; simpl; lia.
Qed.

Lemma exp_sign_length (s : jsstring) :
  (length (snd (exp_sign s)) <= length s)%nat.
Proof.
  destruct s as [|g r]; simpl; [lia|].
  destruct (g =? 45); simpl; [lia|]. destruct (g =? 43); simpl; lia.
Qed.

Lemma exp_part_length (s : jsstring) (e : Z) (r : jsstring) :
  exp_part s = Some (e, r) -> (length r <= length s)%nat.
Proof.
  destruct s as [|c s']; [intros H; inversion H; subst; lia|].
  cbn [exp_part length]. destruct ((c =? 101) || (c =? 69)).
  - pose proof (exp_sign_length s') as Hs.
    destruct (exp_sign s') as [eneg r1]. cbn [snd] in Hs.
    destruct (span_digits r1) as [ed r2] eqn:E. destruct ed; [discriminate|].
    intros H; inversion H; subst. apply span_digits_length in E. lia.
  - intros H; inversion H; subst; simpl; lia.
Qed.

Lemma parse_number_length (s : jsstring) (n : number) (r : jsstring) :
  parse_number s = Some (n, r) -> (length r < length s)%nat.
Proof.
  unfold parse_number. pose proof (minus_sign_length s) as H1.
  destruct (minus_sign s) as [neg s1]. cbn [snd] in H1.
  destruct (int_part s1) as [[i s2]|] eqn:E2; [|discriminate].
  destruct (frac_part s2) as [[f s3]|] eqn:E3; [|discriminate].
  destruct (exp_part s3) as [[e s4]|] eqn:E4; [|discriminate].
  apply int_part_length in E2. apply frac_part_length in E3.
  apply exp_part_length in E4. intros H; inversion H; subst. lia.
Qed.

(** ** The parser consumes input and never runs out of fuel *)

Ltac skip_ws_le s :=
  let H := fresh "Hws" in pose proof (skip_ws_length s) as H.

Lemma parse_consumes (f : nat) :
  (forall s v r, parse_value f s = Parsed v r -> (length r < length s)%nat) /\
  (forall s vs r, parse_elements f s = Parsed vs r -> (length r < length s)%nat) /\
  (forall s acc ps r, parse_members f s acc = Parsed ps r -> (length r < length s)%nat).
Proof.
  induction f as [|f (IHv & IHe & IHm)].
  { repeat split; intros; discriminate. }
  repeat split.
  - intros s v r. cbn [parse_value]. skip_ws_le s.
    destruct (skip_ws s) as [|c r0] eqn:Es; [discriminate|]. simpl in Hws.
    destruct (c =? 91).
    { skip_ws_le r0. destruct (skip_ws r0) as [|d r'] eqn:Er; [discriminate|]. simpl in *.
      destruct (d =? 93).
      - intros H; inversion H; subst; lia.
      - destruct (parse_elements f r0) as [vs rest| |] eqn:E; try discriminate.
        apply IHe in E. intros H; inversion H; subst; lia. }
    destruct (c =? 123).
    { skip_ws_le r0. destruct (skip_ws r0) as [|d r'] eqn:Er; [discriminate|]. simpl in *.
      destruct (d =? 125).
      - intros H; inversion H; subst; lia.
      - destruct (parse_members f r0 []) as [ps rest| |] eqn:E; try discriminate.
        apply IHm in E. intros H; inversion H; subst; lia. }
    destruct (c =? 34).
    { destruct (parse_string_chars r0) as [[str rest]|] eqn:E; [|discriminate].
      apply parse_string_chars_length in E. intros H; inversion H; subst; lia. }
    destruct (c =? 116).
    { destruct (strip_prefix _ r0) as [rest|] eqn:E; [|discriminate].
      apply strip_prefix_length in E. intros H; inversion H; subst; lia. }
    destruct (c =? 102).
    { destruct (strip_prefix _ r0) as [rest|] eqn:E; [|discriminate].
      apply strip_prefix_length in E. intros H; inversion H; subst; lia. }
    destruct (c =? 110).
    { destruct (strip_prefix _ r0) as [rest|] eqn:E; [|discriminate].
      apply strip_prefix_length in E. intros H; inversion H; subst; lia. }
    destruct (parse_number (c :: r0)) as [[n rest]|] eqn:E; [|discriminate].
    apply parse_number_length in E. simpl in E. intros H; inversion H; subst; lia.
  - intros s vs r. cbn [parse_elements].
    destruct (parse_value f s) as [v rest| |] eqn:E; try discriminate.
    apply IHv in E. skip_ws_le rest.
    destruct (skip_ws rest) as [|c r0]; [discriminate|]. simpl in *.
    destruct (c =? 44).
    { destruct (parse_elements f r0) as [vs' rest'| |] eqn:E'; try discriminate.
      apply IHe in E'. intros H; inversion H; subst; lia. }
    destruct (c =? 93); [|discriminate].
    intros H; inversion H; subst; lia.
  - intros s acc ps r. cbn [parse_members]. skip_ws_le s.
    destruct (skip_ws s) as [|q r0]; [discriminate|]. simpl in *.
    destruct (q =? 34); [|discriminate].
    destruct (parse_string_chars r0) as [[k r1]|] eqn:Ek; [|discriminate].
    apply parse_string_chars_length in Ek. skip_ws_le r1.
    destruct (skip_ws r1) as [|colon r2]; [discriminate|]. simpl in *.
    destruct (colon =? 58); [|discriminate].
    destruct (parse_value f r2) as [v rest| |] eqn:E; try discriminate.
    apply IHv in E. skip_ws_le rest.
    destruct (skip_ws rest) as [|c r3]; [discriminate|]. simpl in *.
    destruct (c =? 44).
    { intros H. apply IHm in H. lia. }
    destruct (c =? 125); [|discriminate].
    intros H; inversion H; subst; lia.
Qed.

Lemma parse_fuel (f : nat) :
  (forall s, (2 * length s < f)%nat -> parse_value f s <> OutOfFuel) /\
  (forall s, (2 * length s + 1 < f)%nat -> parse_elements f s <> OutOfFuel) /\
  (forall s acc, (2 * length s + 1 < f)%nat -> parse_members f s acc <> OutOfFuel).
Proof.
  induction f as [|f (IHv & IHe & IHm)].
  { repeat split; intros; lia. }
  destruct (parse_consumes f) as (Cv & Ce & Cm).
  repeat split.
  - intros s Hf. cbn [parse_value]. skip_ws_le s.
    destruct (skip_ws s) as [|c r0] eqn:Es; [discriminate|]. simpl in Hws.
    destruct (c =? 91).
    { skip_ws_le r0. destruct (skip_ws r0) as [|d r'] eqn:Er; [discriminate|]. simpl in *.
      destruct (d =? 93); [discriminate|].
      assert (Hne : parse_elements f r0 <> OutOfFuel) by (apply IHe; lia).
      destruct (parse_elements f r0); congruence. }
    destruct (c =? 123).
    { skip_ws_le r0. destruct (skip_ws r0) as [|d r'] eqn:Er; [discriminate|]. simpl in *.
      destruct (d =? 125); [discriminate|].
      assert (Hne : parse_members f r0 [] <> OutOfFuel) by (apply IHm; lia).
      destruct (parse_members f r0 []); congruence. }
    destruct (c =? 34). { destruct (parse_string_chars r0) as [[? ?]|]; discriminate. }
    destruct (c =? 116). { destruct (strip_prefix _ r0); discriminate. }
    destruct (c =? 102). { destruct (strip_prefix _ r0); discriminate. }
    destruct (c =? 110). { destruct (strip_prefix _ r0); discriminate. }
    destruct (parse_number (c :: r0)) as [[? ?]|]; discriminate.
  - intros s Hf. cbn [parse_elements].
    assert (Hne : parse_value f s <> OutOfFuel) by (apply IHv; lia).
    destruct (parse_value f s) as [v rest| |] eqn:E; try congruence.
    apply Cv in E. skip_ws_le rest.
    destruct (skip_ws rest) as [|c r0]; [discriminate|]. simpl in *.
    destruct (c =? 44).
    { assert (Hne' : parse_elements f r0 <> OutOfFuel) by (apply IHe; lia).
      destruct (parse_elements f r0); congruence. }
    destruct (c =? 93); discriminate.
  - intros s acc Hf. cbn [parse_members]. skip_ws_le s.
    destruct (skip_ws s) as [|q r0]; [discriminate|]. simpl in *.
    destruct (q =? 34); [|discriminate].
    destruct (parse_string_chars r0) as [[k r1]|] eqn:Ek; [|discriminate].
    apply parse_string_chars_length in Ek. skip_ws_le r1.
    destruct (skip_ws r1) as [|colon r2]; [discriminate|]. simpl in *.
    destruct (colon =? 58); [|discriminate].
    assert (Hne : parse_value f r2 <> OutOfFuel) by (apply IHv; lia).
    destruct (parse_value f r2) as [v rest| |] eqn:E; try congruence.
    apply Cv in E. skip_ws_le rest.
    destruct (skip_ws rest) as [|c r3]; [discriminate|]. simpl in *.
    destruct (c =? 44). { apply IHm; lia. }
    destruct (c =? 125); discriminate.
Qed.

Theorem parse_value_fuel (s : jsstring) :
  parse_value (2 * length s + 1) s <> OutOfFuel.
Proof. apply (proj1 (parse_fuel _)). lia. Qed.


(** ** Decimal numerals *)


Lemma digits_value_fold (ds : jsstring) : digits_value ds = fold_left digit_step ds 0.
Proof. reflexivity. Qed.

Lemma div_mod10 (n : N) :
  exists q r, n / 10 = q /\ n mod 10 = r /\ n = 10 * q + r /\ r < 10.
Proof.
  exists (n / 10), (n mod 10). repeat split;
    [apply N.Div0.div_mod | apply N.mod_lt; discriminate].
Qed.

Lemma div10_lt (n : N) (f : nat) :
  n < 2 ^ N.of_nat (S f) -> n / 10 < 2 ^ N.of_nat f.
Proof.
  intros H. rewrite Nat2N.inj_succ, N.pow_succ_r' in H.
  apply N.Div0.div_lt_upper_bound; lia.
Qed.

Lemma digits_aux_value (f : nat) : forall n acc,
  n < 2 ^ N.of_nat f ->
  fold_left digit_step (digits_aux f n acc) 0 = fold_left digit_step acc n.
Proof.
  induction f as [|f IH]; intros n acc Hn.
  - simpl in Hn. assert (n = 0) by lia. subst. reflexivity.
  - cbn [digits_aux]. destruct (div_mod10 n) as (q & d & Eq & Ed & Hdm & Hm).
    rewrite Eq, Ed.
    destruct (q =? 0) eqn:E.
    + apply N.eqb_eq in E. cbn [fold_left]. f_equal.
      unfold digit_step, digit_char. lia.
    + rewrite IH by (rewrite <- Eq; apply div10_lt; exact Hn).
      cbn [fold_left]. f_equal. unfold digit_step, digit_char. lia.
Qed.

Lemma log2_fuel (n : N) : n < 2 ^ N.of_nat (S (N.to_nat (N.log2 n))).
Proof.
  rewrite Nat2N.inj_succ, N2Nat.id.
  destruct (N.eq_dec n 0) as [->|Hn]; [reflexivity|].
  apply N.log2_spec. lia.
Qed.

Lemma digits_value_digits (n : N) : digits_value (digits n) = n.
Proof.
  unfold digits. rewrite digits_value_fold, digits_aux_value by apply log2_fuel.
  reflexivity.
Qed.

Lemma is_digit_digit_char (d : N) : d < 10 -> is_digit (digit_char d) = true.
Proof.
  intros H. unfold is_digit, digit_char.
  apply andb_true_intro; split; apply N.leb_le; lia.
Qed.

Lemma digits_aux_shape (f : nat) : forall n acc,
  n < 2 ^ N.of_nat f -> n <> 0 ->
  exists c r, digits_aux f n acc = c :: r ++ acc /\ c <> 48 /\
              forallb is_digit (c :: r) = true.
Proof.
  induction f as [|f IH]; intros n acc Hn Hz.
  - simpl in Hn. lia.
  - cbn [digits_aux]. destruct (div_mod10 n) as (q & d & Eq & Ed & Hdm & Hm).
    rewrite Eq, Ed.
    destruct (q =? 0) eqn:E.
    + apply N.eqb_eq in E. exists (digit_char d), [].
      repeat split.
      * unfold digit_char. lia.
      * cbn [forallb]. rewrite is_digit_digit_char by exact Hm. reflexivity.
    + apply N.eqb_neq in E.
      destruct (IH q (digit_char d :: acc)) as (c & r & Hd & Hc & Hall).
      { rewrite <- Eq; apply div10_lt; exact Hn. } { exact E. }
      exists c, (r ++ [digit_char d]). repeat split.
      * rewrite Hd, <- app_assoc. reflexivity.
      * exact Hc.
      * cbn [forallb] in *. apply andb_prop in Hall as [H1 H2].
        rewrite H1, forallb_app, H2. cbn [forallb andb].
        rewrite is_digit_digit_char by exact Hm. reflexivity.
Qed.

Lemma digits_shape (n : N) :
  n <> 0 ->
  exists c r, digits n = c :: r /\ c <> 48 /\ forallb is_digit (c :: r) = true.
Proof.
  intros Hz. destruct (digits_aux_shape _ n [] (log2_fuel n) Hz) as (c & r & H & Hc & Hall).
  exists c, r. unfold digits. rewrite H, app_nil_r. auto.
Qed.

Lemma digits_aux_length (f : nat) : forall n acc k,
  n < 10 ^ N.of_nat (S k) ->
  (length (digits_aux f n acc) <= S k + length acc)%nat.
Proof.
  induction f as [|f IH]; intros n acc k Hn.
  - simpl. lia.
  - cbn [digits_aux].
    destruct (n / 10 =? 0) eqn:E.
    + simpl. lia.
    + apply N.eqb_neq in E. destruct k as [|k].
      * exfalso. apply E. apply N.div_small. exact Hn.
      * etransitivity.
        { apply (IH _ _ k). rewrite (Nat2N.inj_succ (S k)), N.pow_succ_r' in Hn.
          apply N.Div0.div_lt_upper_bound. exact Hn. }
        simpl. lia.
Qed.

Lemma digits_length (n : N) (k : nat) :
  n < 10 ^ N.of_nat (S k) -> (length (digits n) <= S k)%nat.
Proof.
  intros H. pose proof (digits_aux_length (S (N.to_nat (N.log2 n))) n [] k H) as L.
  cbn [length] in L. rewrite Nat.add_0_r in L. exact L.
Qed.

(** Trailing zeros taken off and put back. *)
Lemma drop_zeros_spec (l : jsstring) :
  l = repeat 48 (length l - length (drop_zeros l)) ++ drop_zeros l.
Proof.
  induction l as [|c l IH]; [reflexivity|].
  cbn [drop_zeros]. destruct (c =? 48) eqn:E.
  - apply N.eqb_eq in E. subst c.
    assert (Hle : (length (drop_zeros l) <= length l)%nat).
    { clear. induction l as [|c l IH]; [simpl; lia|].
      cbn [drop_zeros]. destruct (c =? 48); simpl in *; lia. }
    cbn [length]. rewrite Nat.sub_succ_l by exact Hle.
    cbn [repeat app]. f_equal. exact IH.
  - rewrite Nat.sub_diag. reflexivity.
Qed.

Lemma rev_repeat_N (c : N) (n : nat) : rev (repeat c n) = repeat c n.
Proof.
  induction n as [|n IH]; [reflexivity|].
  simpl. rewrite IH. clear IH. induction n as [|n IH]; [reflexivity|].
  simpl. f_equal. exact IH.
Qed.

Lemma strip_trailing_zeros_spec (ds : jsstring) :
  strip_trailing_zeros ds ++ zeros (length ds - length (strip_trailing_zeros ds)) = ds.
Proof.
  unfold strip_trailing_zeros, zeros.
  rewrite length_rev. rewrite <- (length_rev ds).
  rewrite <- (rev_repeat_N 48), <- rev_app_distr, <- drop_zeros_spec.
  apply rev_involutive.
Qed.

Lemma strip_trailing_zeros_length (ds : jsstring) :
  (length (strip_trailing_zeros ds) <= length ds)%nat.
Proof.
  rewrite <- (strip_trailing_zeros_spec ds) at 2. rewrite length_app. lia.
Qed.

(** ** Integers print as their digits and read back *)

Lemma number_to_string_integer (z : Z) :
  (Z.abs z < 10 ^ 21)%Z ->
  number_to_string (num_of_Z z) =
  (if (z <? 0)%Z then [45] else []) ++ digits (Z.abs_N z).
Proof.
  intros Hz. unfold number_to_string, num_of_Z, num_norm.
  cbn [scale mant num_norm_aux].
  destruct (z =? 0)%Z eqn:E0.
  { apply Z.eqb_eq in E0. subst z. reflexivity. }
  cbv zeta. f_equal.
  set (ds := digits (Z.abs_N z)).
  assert (HL : (length ds <= 21)%nat).
  { apply digits_length. change (10 ^ N.of_nat 21) with (Z.to_N (10 ^ 21)). lia. }
  pose proof (strip_trailing_zeros_length ds) as Hk.
  replace (Z.of_nat (length ds) - Z.of_nat 0)%Z with (Z.of_nat (length ds)) by lia.
  replace ((-5 <=? Z.of_nat (length ds)) && (Z.of_nat (length ds) <=? 21))%Z
    with true by (symmetry; apply andb_true_intro; split; apply Z.leb_le; lia).
  replace (Z.of_nat (length (strip_trailing_zeros ds)) <=? Z.of_nat (length ds))%Z
    with true by (symmetry; apply Z.leb_le; lia).
  rewrite Nat2Z.id. apply strip_trailing_zeros_spec.
Qed.


Lemma span_digits_app (ds rest : jsstring) :
  forallb is_digit ds = true -> ends_numeral rest = true ->
  span_digits (ds ++ rest) = (ds, rest).
Proof.
  intros Hds Hrest. induction ds as [|c ds IH]; cbn [app].
  - destruct rest as [|c r]; [reflexivity|]. cbn [span_digits].
    cbn [ends_numeral] in Hrest. destruct (is_digit c); [discriminate|]. reflexivity.
  - cbn [forallb] in Hds. apply andb_prop in Hds as [Hc Hds].
    cbn [span_digits]. rewrite Hc, (IH Hds). reflexivity.
Qed.

Lemma ends_numeral_head (c : N) (r : jsstring) :
  ends_numeral (c :: r) = true ->
  (c =? 46) = false /\ ((c =? 101) || (c =? 69)) = false.
Proof.
  cbn [ends_numeral]. destruct (is_digit c), (c =? 46), (c =? 101), (c =? 69);
    cbn; intros H; try discriminate; auto.
Qed.

Lemma frac_exp_none (rest : jsstring) :
  ends_numeral rest = true ->
  frac_part rest = Some ([], rest) /\ exp_part rest = Some (0%Z, rest).
Proof.
  destruct rest as [|d rest']; [split; reflexivity|]. intros H.
  destruct (ends_numeral_head _ _ H) as [H1 H2].
  cbn [frac_part exp_part]. rewrite H1, H2. split; reflexivity.
Qed.

Lemma parse_number_digits (neg : bool) (c : N) (r rest : jsstring) :
  c <> 48 -> forallb is_digit (c :: r) = true -> ends_numeral rest = true ->
  parse_number ((if neg then [45] else []) ++ c :: r ++ rest) =
  Some (numeral_value neg (c :: r) [] 0, rest).
Proof.
  intros Hc Hds Hrest. cbn [forallb] in Hds. apply andb_prop in Hds as [Hd Hr].
  assert (Hm : (c =? 45) = false).
  { apply N.eqb_neq. intros ->. discriminate. }
  apply N.eqb_neq in Hc.
  assert (Hsign : minus_sign ((if neg then [45] else []) ++ c :: r ++ rest) =
                  (neg, c :: r ++ rest)).
  { destruct neg; cbn [app minus_sign]; [reflexivity|]. rewrite Hm. reflexivity. }
  destruct (frac_exp_none rest Hrest) as [Hf He].
  unfold parse_number. rewrite Hsign. cbn [int_part].
  rewrite Hc, Hd, (span_digits_app _ _ Hr Hrest), Hf, He. reflexivity.
Qed.

Lemma numeral_value_integer (neg : bool) (ds : jsstring) :
  numeral_value neg ds [] 0 =
  num_of_Z (if neg then - Z.of_N (digits_value ds) else Z.of_N (digits_value ds))%Z.
Proof.
  unfold numeral_value, num_of_Z. rewrite app_nil_r. cbn [length].
  change (0 - Z.of_nat 0)%Z with 0%Z. cbn [Z.leb Z.compare].
  rewrite Z.pow_0_r, Z.mul_1_r. reflexivity.
Qed.

Lemma parse_number_integer (z : Z) (rest : jsstring) :
  (Z.abs z < 10 ^ 21)%Z -> ends_numeral rest = true ->
  parse_number (number_to_string (num_of_Z z) ++ rest) = Some (num_of_Z z, rest).
Proof.
  intros Hz Hrest. rewrite number_to_string_integer by exact Hz.
  destruct (Z.eq_dec z 0%Z) as [->|Hnz].
  { change (parse_number (48 :: rest) = Some (num_of_Z 0, rest)).
    destruct (frac_exp_none rest Hrest) as [Hf He].
    unfold parse_number.
    replace (minus_sign (48 :: rest)) with (false, 48 :: rest) by reflexivity.
    replace (int_part (48 :: rest)) with (Some ([48], rest)) by reflexivity.
    rewrite Hf, He. reflexivity. }
  destruct (digits_shape (Z.abs_N z)) as (c & r & Hd & Hc & Hall); [lia|].
  pose proof (digits_value_digits (Z.abs_N z)) as Hv.
  rewrite Hd in Hv |- *. rewrite <- app_assoc. cbn [app].
  rewrite (parse_number_digits (z <? 0)%Z c r rest Hc Hall Hrest).
  rewrite numeral_value_integer, Hv. do 3 f_equal.
  destruct (z <? 0)%Z eqn:E; [apply Z.ltb_lt in E | apply Z.ltb_ge in E]; lia.
Qed.


(** ** Strings are quoted and read back *)

Lemma hex_val_hex_char (d : N) : d < 16 -> hex_val (hex_char d) = Some d.
Proof.
  intros H.
  assert (Hd : d = 0 \/ d = 1 \/ d = 2 \/ d = 3 \/ d = 4 \/ d = 5 \/ d = 6 \/
               d = 7 \/ d = 8 \/ d = 9 \/ d = 10 \/ d = 11 \/ d = 12 \/
               d = 13 \/ d = 14 \/ d = 15) by lia.
  repeat (destruct Hd as [-> | Hd]; [reflexivity|]). subst. reflexivity.
Qed.

Lemma div_mod16 (n : N) :
  exists q r, n / 16 = q /\ n mod 16 = r /\ n = 16 * q + r /\ r < 16.
Proof.
  exists (n / 16), (n mod 16). repeat split;
    [apply N.Div0.div_mod | apply N.mod_lt; discriminate].
Qed.

Lemma hex4_val_unicode_escape (c : N) :
  c < 65536 ->
  hex4_val (hex_char (c / 4096 mod 16)) (hex_char (c / 256 mod 16))
           (hex_char (c / 16 mod 16)) (hex_char (c mod 16)) = Some c.
Proof.
  intros Hc.
  replace (c / 4096) with (c / 16 / 16 / 16)
    by (rewrite !N.Div0.div_div; reflexivity).
  replace (c / 256) with (c / 16 / 16) by (rewrite !N.Div0.div_div; reflexivity).
  destruct (div_mod16 c) as (q1 & d0 & -> & -> & H0 & L0).
  destruct (div_mod16 q1) as (q2 & d1 & -> & -> & H1 & L1).
  destruct (div_mod16 q2) as (q3 & d2 & -> & -> & H2 & L2).
  assert (L3 : q3 < 16) by lia.
  rewrite (N.mod_small q3 16 L3).
  unfold hex4_val. rewrite !hex_val_hex_char by assumption.
  f_equal. lia.
Qed.

Lemma parse_string_chars_literal (c : N) (t : jsstring) :
  (c =? 34) = false -> (c =? 92) = false -> (c <? 32) = false ->
  parse_string_chars (c :: t) = cons_unit c (parse_string_chars t).
Proof. intros H1 H2 H3. cbn [parse_string_chars]. rewrite H1, H2, H3. reflexivity. Qed.

Lemma parse_string_chars_escape (c : N) (t : jsstring) :
  c < 65536 ->
  parse_string_chars (unicode_escape c ++ t) = cons_unit c (parse_string_chars t).
Proof.
  intros Hc. unfold unicode_escape. cbn [app parse_string_chars].
  change (92 =? 34) with false. change (92 =? 92) with true.
  change (117 =? 117) with true. cbv iota.
  rewrite hex4_val_unicode_escape by exact Hc. reflexivity.
Qed.

Lemma surrogate_literal (c : N) :
  is_high_surrogate c || is_low_surrogate c = true ->
  (c =? 34) = false /\ (c =? 92) = false /\ (c <? 32) = false /\ c < 65536.
Proof.
  unfold is_high_surrogate, is_low_surrogate. intros H.
  apply orb_prop in H as [H|H]; apply andb_prop in H as [H1 H2];
    apply N.leb_le in H1, H2;
    (repeat split; [apply N.eqb_neq | apply N.eqb_neq | apply N.ltb_ge | ]; lia).
Qed.

Lemma parse_string_chars_quote_unit (c : N) (t : jsstring) :
  parse_string_chars (quote_unit c ++ t) = cons_unit c (parse_string_chars t).
Proof.
  unfold quote_unit.
  destruct (c =? 8) eqn:E8; [apply N.eqb_eq in E8; subst; reflexivity|].
  destruct (c =? 9) eqn:E9; [apply N.eqb_eq in E9; subst; reflexivity|].
  destruct (c =? 10) eqn:E10; [apply N.eqb_eq in E10; subst; reflexivity|].
  destruct (c =? 12) eqn:E12; [apply N.eqb_eq in E12; subst; reflexivity|].
  destruct (c =? 13) eqn:E13; [apply N.eqb_eq in E13; subst; reflexivity|].
  destruct (c =? 34) eqn:E34; [apply N.eqb_eq in E34; subst; reflexivity|].
  destruct (c =? 92) eqn:E92; [apply N.eqb_eq in E92; subst; reflexivity|].
  destruct (c <? 32) eqn:E32.
  { apply parse_string_chars_escape. apply N.ltb_lt in E32. lia. }
  cbn [orb].
  destruct (is_high_surrogate c || is_low_surrogate c) eqn:Es.
  { apply parse_string_chars_escape. apply surrogate_literal in Es. tauto. }
  cbn [app]. apply parse_string_chars_literal; assumption.
Qed.

Lemma parse_string_chars_quote_units (s rest : jsstring) :
  parse_string_chars (quote_units s ++ 34 :: rest) = Some (s, rest).
Proof.
  remember (length s) as n eqn:Hn.
  assert (Hle : (length s <= n)%nat) by lia. clear Hn.
  revert s Hle. induction n as [|n IH]; intros s Hle.
  - destruct s; [reflexivity | simpl in Hle; lia].
  - destruct s as [|c r]; [reflexivity|]. cbn [length] in Hle.
    cbn [quote_units].
    assert (Hunit : parse_string_chars ((quote_unit c ++ quote_units r) ++ 34 :: rest)
                    = Some (c :: r, rest)).
    { rewrite <- app_assoc, parse_string_chars_quote_unit, IH by lia. reflexivity. }
    destruct (is_high_surrogate c) eqn:Eh; [|exact Hunit].
    destruct r as [|d r'].
    { cbn [quote_units] in Hunit. rewrite app_nil_r in Hunit. exact Hunit. }
    destruct (is_low_surrogate d) eqn:El; [|exact Hunit].
    cbn [length] in Hle. cbn [app].
    destruct (surrogate_literal c) as (A1 & A2 & A3 & _); [rewrite Eh; reflexivity|].
    destruct (surrogate_literal d) as (B1 & B2 & B3 & _);
      [rewrite El; apply orb_true_r|].
    rewrite parse_string_chars_literal by assumption.
    rewrite parse_string_chars_literal by assumption.
    rewrite IH by lia. reflexivity.
Qed.

Lemma parse_value_quote (f : nat) (s rest : jsstring) :
  parse_value (S f) (quote s ++ rest) = Parsed (JStr s) rest.
Proof.
  unfold quote. cbn [app parse_value skip_ws].
  change (is_json_ws 34) with false. cbv iota.
  change (34 =? 91) with false. change (34 =? 123) with false.
  change (34 =? 34) with true. cbv iota.
  rewrite <- app_assoc. cbn [app].
  rewrite parse_string_chars_quote_units. reflexivity.
Qed.


(** ** Tasks are written and read back *)

Lemma digits_head (n : N) :
  exists c r, digits n = c :: r /\ is_digit c = true.
Proof.
  destruct (N.eq_dec n 0) as [->|Hn].
  - exists 48, []. split; reflexivity.
  - destruct (digits_shape n Hn) as (c & r & H & _ & Hall).
    exists c, r. cbn [forallb] in Hall. apply andb_prop in Hall as [Hc _]. auto.
Qed.

Lemma numeral_head (c : N) :
  c = 45 \/ is_digit c = true ->
  is_json_ws c = false /\ (c =? 91) = false /\ (c =? 123) = false /\
  (c =? 34) = false /\ (c =? 116) = false /\ (c =? 102) = false /\
  (c =? 110) = false.
Proof.
  intros [->|H]; [repeat split|].
  unfold is_digit in H. apply andb_prop in H as [H1 H2]. apply N.leb_le in H1, H2.
  unfold is_json_ws.
  repeat split; repeat (apply orb_false_intro); apply N.eqb_neq; lia.
Qed.

Lemma parse_value_integer (f : nat) (z : Z) (rest : jsstring) :
  (Z.abs z < 10 ^ 21)%Z -> ends_numeral rest = true ->
  parse_value (S f) (number_to_string (num_of_Z z) ++ rest) =
  Parsed (JNum (num_of_Z z)) rest.
Proof.
  intros Hz Hrest. pose proof (parse_number_integer z rest Hz Hrest) as Hp.
  assert (Hhead : exists c r, number_to_string (num_of_Z z) = c :: r /\
                              (c = 45 \/ is_digit c = true)).
  { rewrite number_to_string_integer by exact Hz.
    destruct (z <? 0)%Z; cbn [app]; [eauto|].
    destruct (digits_head (Z.abs_N z)) as (c & r & -> & Hc). eauto. }
  destruct Hhead as (c & r & Hs & Hc). rewrite Hs in Hp |- *. cbn [app] in Hp |- *.
  destruct (numeral_head c Hc) as (W & A & B & C & D & E & F).
  cbn [parse_value skip_ws]. rewrite W, A, B, C, D, E, F, Hp. reflexivity.
Qed.

Lemma parse_members_more (f : nat) (k rest1 : jsstring) (v : JsVal)
    (rest2 : jsstring) (acc : list (jsstring * JsVal)) :
  parse_value f rest1 = Parsed v (44 :: rest2) ->
  parse_members (S f) (quote k ++ 58 :: rest1) acc =
  parse_members f rest2 (obj_set k v acc).
Proof.
  intros Hv. unfold quote. rewrite <- !app_assoc. cbn [app parse_members skip_ws].
  change (is_json_ws 34) with false. cbv iota.
  change (34 =? 34) with true. cbv iota.
  rewrite parse_string_chars_quote_units. cbn [skip_ws].
  change (is_json_ws 58) with false. cbv iota.
  change (58 =? 58) with true. cbv iota. rewrite Hv. reflexivity.
Qed.

Lemma parse_members_last (f : nat) (k rest1 : jsstring) (v : JsVal)
    (rest2 : jsstring) (acc : list (jsstring * JsVal)) :
  parse_value f rest1 = Parsed v (125 :: rest2) ->
  parse_members (S f) (quote k ++ 58 :: rest1) acc =
  Parsed (obj_set k v acc) rest2.
Proof.
  intros Hv. unfold quote. rewrite <- !app_assoc. cbn [app parse_members skip_ws].
  change (is_json_ws 34) with false. cbv iota.
  change (34 =? 34) with true. cbv iota.
  rewrite parse_string_chars_quote_units. cbn [skip_ws].
  change (is_json_ws 58) with false. cbv iota.
  change (58 =? 58) with true. cbv iota. rewrite Hv. reflexivity.
Qed.

Lemma parse_value_object (f : nat) (k rest : jsstring) :
  parse_value (S f) (123 :: quote k ++ rest) =
  match parse_members f (quote k ++ rest) [] with
  | Parsed ps rest' => Parsed (JObj ps) rest'
  | SyntaxError => SyntaxError
  | OutOfFuel => OutOfFuel
  end.
Proof. reflexivity. Qed.

Lemma task_object_props (v1 v2 v3 v4 : JsVal) :
  obj_set (lit "createdAt") v4
    (obj_set (lit "status") v3
       (obj_set (lit "title") v2 (obj_set (lit "id") v1 []))) =
  [(lit "id", v1); (lit "title", v2); (lit "status", v3); (lit "createdAt", v4)].
Proof. reflexivity. Qed.

Lemma task_json_unfold (t : Task) :
  task_json t =
  123 :: quote (lit "id") ++ 58 ::
    number_to_string (num_of_Z (task_id t)) ++ 44 ::
    quote (lit "title") ++ 58 :: quote (task_title t) ++ 44 ::
    quote (lit "status") ++ 58 :: quote (task_status t) ++ 44 ::
    quote (lit "createdAt") ++ 58 :: quote (task_createdAt t) ++ [125].
Proof. reflexivity. Qed.

Lemma stringify_task_object (t : Task) :
  stringify (task_object t) = Some (task_json t).
Proof.
  unfold task_object, task_json. cbn [stringify join].
  rewrite <- !app_assoc. reflexivity.
Qed.

Lemma safe_integer_bound (z : Z) : is_safe_integer z -> (Z.abs z < 10 ^ 21)%Z.
Proof. unfold is_safe_integer. intros H. eapply Z.le_lt_trans; [exact H|]. reflexivity. Qed.

Lemma parse_value_task (f : nat) (t : Task) (rest : jsstring) :
  wf_task t ->
  parse_value (6 + f) (task_json t ++ rest) = Parsed (task_object t) rest.
Proof.
  intros Hwf. apply safe_integer_bound in Hwf.
  rewrite task_json_unfold. cbn [app].
  repeat (rewrite <- !app_assoc; cbn [app]).
  change (6 + f)%nat with (S (S (S (S (S (S f)))))).
  rewrite parse_value_object.
  erewrite parse_members_more
    by (apply parse_value_integer; [exact Hwf | reflexivity]).
  erewrite parse_members_more by apply parse_value_quote.
  erewrite parse_members_more by apply parse_value_quote.
  erewrite parse_members_last by apply parse_value_quote.
  rewrite task_object_props. reflexivity.
Qed.

Lemma task_json_head (t : Task) : exists r, task_json t = 123 :: 34 :: r.
Proof. eexists. reflexivity. Qed.

Lemma parse_elements_tasks (ts : list Task) :
  Forall wf_task ts -> ts <> [] ->
  forall f rest,
    parse_elements (7 + length ts + f) (join [44] (List.map task_json ts) ++ 93 :: rest) =
    Parsed (List.map task_object ts) rest.
Proof.
  induction 1 as [|t ts Ht Hts IH]; [congruence|]. intros _ f rest.
  change (7 + length (t :: ts) + f)%nat with (S (6 + (S (length ts + f)))).
  cbn [parse_elements List.map].
  destruct ts as [|t2 ts'].
  - cbn [join List.map]. rewrite parse_value_task by exact Ht. reflexivity.
  - change (join [44] (task_json t :: List.map task_json (t2 :: ts')))
      with (task_json t ++ [44] ++ join [44] (List.map task_json (t2 :: ts'))).
    rewrite <- !app_assoc. rewrite parse_value_task by exact Ht.
    cbn [app skip_ws]. change (is_json_ws 44) with false. cbv iota.
    change (44 =? 44) with true. cbv iota.
    replace (6 + S (length (t2 :: ts') + f))%nat
      with (7 + length (t2 :: ts') + f)%nat by lia.
    rewrite IH by discriminate. reflexivity.
Qed.

Lemma stringify_tasks (ts : list Task) :
  stringify (JArr (List.map task_object ts)) =
  Some (91 :: join [44] (List.map task_json ts) ++ [93]).
Proof.
  cbn [stringify]. f_equal. change (lit "[") with [91]. change (lit "]") with [93].
  change (lit ",") with [44]. cbn [app]. do 3 f_equal.
  induction ts as [|t ts IH]; [reflexivity|].
  cbn [List.map]. rewrite stringify_task_object, IH. reflexivity.
Qed.

Lemma join_tasks_length (ts : list Task) :
  (2 * length ts <= length (join [44%N] (List.map task_json ts)))%nat.
Proof.
  induction ts as [|t ts IH]; [simpl; lia|].
  destruct (task_json_head t) as (r & Hr).
  cbn [List.map]. destruct ts as [|t2 ts'].
  - cbn [join List.map]. rewrite Hr. simpl. lia.
  - change (join [44] (task_json t :: List.map task_json (t2 :: ts')))
      with (task_json t ++ [44] ++ join [44] (List.map task_json (t2 :: ts'))).
    rewrite !length_app, Hr. cbn [length] in *. lia.
Qed.

(** A list of well-formed tasks survives [JSON.stringify] and
    [JSON.parse]. *)
Lemma JSON_parse_stringify_tasks (ts : list Task) (text : jsstring) :
  Forall wf_task ts ->
  JSON_stringify (JArr (List.map task_object ts)) = Some text ->
  JSON_parse text = Some (JArr (List.map task_object ts)).
Proof.
  intros Hwf. unfold JSON_stringify. rewrite stringify_tasks.
  intros H; inversion H; subst text; clear H.
  unfold JSON_parse.
  destruct ts as [|t ts'].
  { reflexivity. }
  set (ts := t :: ts') in *.
  pose proof (join_tasks_length ts) as HL.
  set (body := join [44] (List.map task_json ts)) in *.
  assert (Hb : exists r, body = 123 :: r).
  { subst body ts. destruct (task_json_head t) as (r & Hr).
    cbn [List.map]. destruct ts'; cbn [join List.map]; rewrite Hr; eauto. }
  destruct Hb as (r & Hb).
  assert (Hf : exists f, (2 * length (91%N :: body ++ [93%N]) + 1 =
                          S (7 + length ts + f))%nat).
  { exists (2 * length (91%N :: body ++ [93%N]) - 7 - length ts)%nat.
    cbn [length]. rewrite length_app. subst ts. cbn [length] in *. lia. }
  destruct Hf as (f & ->).
  cbn [parse_value skip_ws]. change (is_json_ws 91) with false. cbv iota.
  change (91 =? 91) with true. cbv iota.
  rewrite Hb at 1. cbn [app skip_ws]. change (is_json_ws 123) with false. cbv iota.
  change (123 =? 93) with false. cbv iota.
  subst body. rewrite parse_elements_tasks by (auto; subst ts; discriminate).
  reflexivity.
Qed.


(** ** The store *)

Lemma stringify_array (l : list JsVal) : exists r, JSON_stringify (JArr l) = Some (91 :: r).
Proof. unfold JSON_stringify. cbn [stringify]. eexists. reflexivity. Qed.

Lemma tasks_json_head (l : list JsVal) : exists r, tasks_json l = 91 :: r.
Proof.
  unfold tasks_json. destruct (stringify_array l) as (r & ->). eauto.
Qed.

Lemma saveTasks_run (p : Page) : saveTasks p = (Normal tt, saved p).
Proof.
  unfold saveTasks, saved, tasks_json, bind, get.
  destruct (JSON_stringify (JArr (tasks p))); reflexivity.
Qed.

Lemma saved_lookup (p : Page) :
  localStorage (saved p) !! STORAGE_KEY = Some (tasks_json (tasks p)).
Proof. unfold saved. cbn [localStorage add_event set_localStorage]. apply lookup_insert_eq. Qed.

Lemma tasks_saved (p : Page) : tasks (saved p) = tasks p.
Proof. reflexivity. Qed.

(** [loadTasks] by cases on the stored item. *)
Lemma loadTasks_run (p : Page) :
  loadTasks p =
  (Normal match localStorage p !! STORAGE_KEY with
          | None => []
          | Some [] => []
          | Some text =>
              match JSON_parse text with
              | Some (JArr parsed) => parsed
              | _ => []
              end
          end, p).
Proof.
  unfold loadTasks, getItem, bind, get, ret.
  destruct (localStorage p !! STORAGE_KEY) as [[|c r]|]; try reflexivity.
  destruct (JSON_parse (c :: r)) as [[]|]; reflexivity.
Qed.

Lemma tasks_json_tasks (ts : list Task) :
  Forall wf_task ts ->
  JSON_parse (tasks_json (List.map task_object ts)) =
  Some (JArr (List.map task_object ts)).
Proof.
  intros Hwf. unfold tasks_json.
  destruct (stringify_array (List.map task_object ts)) as (r & Hs). rewrite Hs.
  apply JSON_parse_stringify_tasks; assumption.
Qed.

Lemma loadTasks_saved (ts : list Task) (p : Page) :
  Forall wf_task ts -> tasks p = List.map task_object ts ->
  loadTasks (saved p) = (Normal (List.map task_object ts), saved p).
Proof.
  intros Hwf Hp. rewrite loadTasks_run, saved_lookup, Hp.
  pose proof (tasks_json_tasks ts Hwf) as HP.
  destruct (tasks_json_head (List.map task_object ts)) as (r & Hr).
  rewrite Hr in HP |- *. rewrite HP. reflexivity.
Qed.


Lemma same_fields_task_object (t : Task) : same_fields (task_object t) t.
Proof. repeat split. Qed.

(** C1.  Saving a list of well-formed tasks and loading it again gives the
    same list: the same number of tasks, in the same order, each with the
    same id, title, status and createdAt. *)
Theorem save_load_roundtrip (ts : list Task) (p : Page) :
  Forall wf_task ts ->
  let p1 := snd (saveTasks (set_tasks (List.map task_object ts) p)) in
  exists loaded,
    fst (loadTasks p1) = Normal loaded /\
    loaded = List.map task_object ts /\
    Forall2 same_fields loaded ts.
Proof.
  intros Hwf p1. subst p1. rewrite saveTasks_run. cbn [snd].
  rewrite (loadTasks_saved ts) by (auto; reflexivity).
  eexists; repeat split.
  clear. induction ts; constructor; auto using same_fields_task_object.
Qed.


Lemma save_load_roundtrip_witness :
  exists loaded,
    fst (loadTasks (snd (saveTasks (set_tasks (List.map task_object [example_task])
                                      (blank_page ∅ [] []))))) = Normal loaded /\
    loaded = List.map task_object [example_task] /\
    Forall2 same_fields loaded [example_task].
Proof.
  apply (save_load_roundtrip [example_task] (blank_page ∅ [] [])).
  repeat constructor. unfold wf_task, is_safe_integer. simpl. lia.
Defined.

(** C2, as the script has it.  When the stored item is missing, or is not
    JSON text, or is JSON text for a value that is not an array,
    [loadTasks] returns the empty array, throws nothing and leaves the page
    as it was. *)
Theorem loadTasks_fails_soft (p : Page) :
  (localStorage p !! STORAGE_KEY = None \/
   exists text, localStorage p !! STORAGE_KEY = Some text /\
     (JSON_parse text = None \/
      exists v, JSON_parse text = Some v /\ is_array v = false)) ->
  loadTasks p = (Normal [], p).
Proof.
  intros H. rewrite loadTasks_run.
  destruct H as [-> | (text & -> & H)]; [reflexivity|].
  destruct text as [|c r]; [reflexivity|].
  destruct H as [-> | (v & -> & Hv)]; [reflexivity|].
  destruct v; try reflexivity. discriminate.
Qed.

Lemma loadTasks_fails_soft_witness :
  loadTasks (blank_page {[STORAGE_KEY := lit "{oops"]} [] []) =
  (Normal [], blank_page {[STORAGE_KEY := lit "{oops"]} [] []).
Proof.
  apply loadTasks_fails_soft. right. exists (lit "{oops"). split.
  - vm_compute. reflexivity.
  - left. vm_compute. reflexivity.
Defined.

(** C2 as stated fails: a stored array whose elements are not task records
    is parseable and is not a sequence of task records, and [loadTasks]
    returns it as it is. *)
Lemma loadTasks_keeps_any_array :
  let p := blank_page {[STORAGE_KEY := lit "[1,2,3]"]} [] [] in
  (exists text v, localStorage p !! STORAGE_KEY = Some text /\
                  JSON_parse text = Some v /\ is_task_sequence v = false) /\
  fst (loadTasks p) =
    Normal [JNum (num_of_Z 1); JNum (num_of_Z 2); JNum (num_of_Z 3)] /\
  fst (loadTasks p) <> Normal [].
Proof.
  cbv zeta. split; [|split].
  - exists (lit "[1,2,3]"),
      (JArr [JNum (num_of_Z 1); JNum (num_of_Z 2); JNum (num_of_Z 3)]).
    repeat split; vm_compute; reflexivity.
  - vm_compute. reflexivity.
  - vm_compute. discriminate.
Qed.

(** ** Validation *)

Lemma trim_start_blank (s : jsstring) :
  forallb is_js_space s = true -> trim_start s = [].
Proof.
  induction s as [|c s IH]; [reflexivity|]. cbn [forallb trim_start].
  intros H. apply andb_prop in H as [Hc Hs]. rewrite Hc. auto.
Qed.

Lemma trim_blank (s : jsstring) : forallb is_js_space s = true -> trim s = [].
Proof. intros H. unfold trim. rewrite trim_start_blank by exact H. reflexivity. Qed.

(** C3.  With a title that is empty or all white space, [addTask] alerts
    the user and does nothing else: the task list, the stored item, the
    table and the title input stay as they were, and the only event is the
    alert, so nothing is saved, drawn or sent. *)
Theorem addTask_blank_title (now : Z) (locale_now : jsstring) (p : Page) :
  forallb is_js_space (taskTitleInput p) = true ->
  let r := addTask now locale_now p in
  fst r = Normal JUndefined /\
  tasks (snd r) = tasks p /\
  localStorage (snd r) = localStorage p /\
  taskTableBody (snd r) = taskTableBody p /\
  taskTitleInput (snd r) = taskTitleInput p /\
  saveMessage (snd r) = saveMessage p /\
  trace (snd r) = trace p ++ [EAlert (lit "Please enter a task title.")].
Proof.
  intros H r. subst r. unfold addTask, bind, get.
  rewrite (trim_blank _ H). repeat split.
Qed.

Lemma addTask_blank_title_witness :
  let r := addTask 1762112345678 (lit "11/2/2026, 8:34:00 PM")
             (blank_page ∅ (lit "   ") (lit "pending")) in
  fst r = Normal JUndefined /\
  tasks (snd r) = [] /\
  localStorage (snd r) = ∅ /\
  taskTableBody (snd r) = [] /\
  taskTitleInput (snd r) = lit "   " /\
  saveMessage (snd r) = saveMessage (blank_page ∅ (lit "   ") (lit "pending")) /\
  trace (snd r) = [] ++ [EAlert (lit "Please enter a task title.")].
Proof.
  apply (addTask_blank_title 1762112345678 (lit "11/2/2026, 8:34:00 PM")
           (blank_page ∅ (lit "   ") (lit "pending"))).
  reflexivity.
Defined.





(** ** The view *)

Ltac run_script :=
  cbv beta iota zeta delta [bind modify emit get ret lift try_catch].

Lemma appendChild_run (row : tr) (p : Page) :
  appendChild row p = (Normal tt, appended [row] p).
Proof. reflexivity. Qed.

Lemma appended_nil (p : Page) : appended [] p = p.
Proof. destruct p. unfold appended. cbn. rewrite !app_nil_r. reflexivity. Qed.

Lemma appended_app (r1 r2 : list tr) (p : Page) :
  appended r2 (appended r1 p) = appended (r1 ++ r2) p.
Proof. unfold appended. cbn. rewrite map_app, !app_assoc. reflexivity. Qed.

Lemma render_row_cases (task : JsVal) (p : Page) :
  (exists e, render_row task p = (Thrown e, p)) \/
  (exists row, render_row task p = (Normal tt, appended [row] p)).
Proof.
  unfold render_row, escapeHtml. run_script.
  destruct (get_prop task (lit "title")) as [v1|e]; [|left; eauto].
  destruct (to_dom_string v1) as [s1|e]; [|left; eauto].
  destruct (get_prop task (lit "status")) as [v2|e]; [|left; eauto].
  destruct (to_string v2) as [s2|e]; [|left; eauto].
  destruct (get_prop task (lit "createdAt")) as [v3|e]; [|left; eauto].
  destruct (to_string v3) as [s3|e]; [|left; eauto].
  destruct (get_prop task (lit "id")) as [v4|e]; [|left; eauto].
  destruct (to_string v4) as [s4|e]; [|left; eauto].
  right. eexists. apply appendChild_run.
Qed.

Lemma render_rows_cases (l : list JsVal) (p : Page) :
  exists c rows, render_rows l p = (c, appended rows p).
Proof.
  revert p. induction l as [|task l IH]; intros p.
  - exists (Normal tt), []. rewrite appended_nil. reflexivity.
  - cbn [render_rows]. run_script.
    destruct (render_row_cases task p) as [(e & ->) | (row & ->)].
    + exists (Thrown e), []. rewrite appended_nil. reflexivity.
    + destruct (IH (appended [row] p)) as (c & rows & ->).
      exists c, ([row] ++ rows). rewrite appended_app. reflexivity.
Qed.

Lemma renderTasks_cases (p : Page) :
  exists c rows, renderTasks p = (c, appended rows (cleared p)).
Proof.
  unfold renderTasks. run_script.
  change (add_event EClearRows (set_taskTableBody [] p)) with (cleared p).
  change (tasks (cleared p)) with (tasks p).
  destruct (tasks p) as [|t l] eqn:E.
  - exists (Normal tt), [Tr empty_row_markup]. apply appendChild_run.
  - apply render_rows_cases.
Qed.

Lemma render_row_task (t : Task) (p : Page) :
  render_row (task_object t) p = (Normal tt, appended [task_row t] p).
Proof. reflexivity. Qed.

Lemma render_rows_tasks (ts : list Task) (p : Page) :
  render_rows (List.map task_object ts) p = (Normal tt, appended (List.map task_row ts) p).
Proof.
  revert p. induction ts as [|t ts IH]; intros p.
  - rewrite appended_nil. reflexivity.
  - cbn [render_rows List.map]. run_script. rewrite render_row_task, IH, appended_app.
    reflexivity.
Qed.

Lemma renderTasks_tasks (ts : list Task) (p : Page) :
  tasks p = List.map task_object ts ->
  renderTasks p = (Normal tt, appended (rows_of ts) (cleared p)).
Proof.
  intros Hp. unfold renderTasks. run_script.
  change (add_event EClearRows (set_taskTableBody [] p)) with (cleared p).
  change (tasks (cleared p)) with (tasks p). rewrite Hp.
  destruct ts as [|t ts']; [reflexivity|].
  change (List.map task_object (t :: ts')) with (task_object t :: List.map task_object ts') at 1.
  cbv iota. apply render_rows_tasks.
Qed.

Lemma is_placeholder_task_row (t : Task) : is_placeholder (task_row t) = false.
Proof. reflexivity. Qed.

Lemma task_rows_rows_of (ts : list Task) :
  task_rows (rows_of ts) = match ts with [] => [] | _ :: _ => List.map task_row ts end.
Proof.
  destruct ts as [|t ts']; [reflexivity|]. unfold rows_of, task_rows.
  generalize (t :: ts'). clear. intros ts.
  induction ts as [|t ts IH]; [reflexivity|].
  cbn [List.map List.filter]. rewrite is_placeholder_task_row. cbn [negb].
  f_equal. exact IH.
Qed.

(** C6.  Drawing a list of well-formed tasks clears the rows that were
    there and then appends the placeholder row when the list is empty, and
    otherwise one row per task, in the order of the list, with the escaped
    title, the status, the creation string and a delete button that carries
    the id.  The number of task rows is the number of tasks, and it is zero
    exactly when the table shows the placeholder alone. *)
Theorem renderTasks_rows (ts : list Task) (p : Page) :
  Forall wf_task ts ->
  let r := renderTasks (set_tasks (List.map task_object ts) p) in
  fst r = Normal tt /\
  taskTableBody (snd r) =
    match ts with
    | [] => [Tr empty_row_markup]
    | _ :: _ =>
        List.map
          (fun t => Tr (row_markup (escape_text (task_title t)) (task_status t)
                          (task_createdAt t)
                          (number_to_string (num_of_Z (task_id t)))))
          ts
    end /\
  trace (snd r) =
    trace p ++ EClearRows :: List.map EAppendRow (taskTableBody (snd r)) /\
  length (task_rows (taskTableBody (snd r))) = length ts /\
  (length (task_rows (taskTableBody (snd r))) = 0%nat <->
   taskTableBody (snd r) = [Tr empty_row_markup]).
Proof.
  intros _ r. subst r. rewrite (renderTasks_tasks ts) by reflexivity. cbn [fst snd].
  change (taskTableBody (appended (rows_of ts) (cleared (set_tasks (List.map task_object ts) p))))
    with (rows_of ts).
  split; [reflexivity|]. split; [destruct ts; reflexivity|].
  split. { cbn. rewrite <- app_assoc. reflexivity. }
  rewrite task_rows_rows_of. split.
  - destruct ts; [reflexivity|]. apply length_map.
  - destruct ts as [|t ts']; [split; reflexivity|].
    split; [discriminate|]. cbn. intros H. inversion H.
Qed.

Lemma renderTasks_rows_witness :
  Forall wf_task [example_task; new_task 1762112345999 (lit "later") example_page] /\
  let ts := [example_task; new_task 1762112345999 (lit "later") example_page] in
  let r := renderTasks (set_tasks (List.map task_object ts) example_page) in
  fst r = Normal tt /\
  taskTableBody (snd r) =
    List.map
      (fun t => Tr (row_markup (escape_text (task_title t)) (task_status t)
                      (task_createdAt t)
                      (number_to_string (num_of_Z (task_id t)))))
      ts /\
  trace (snd r) =
    trace example_page ++ EClearRows :: List.map EAppendRow (taskTableBody (snd r)) /\
  length (task_rows (taskTableBody (snd r))) = length ts /\
  (length (task_rows (taskTableBody (snd r))) = 0%nat <->
   taskTableBody (snd r) = [Tr empty_row_markup]).
Proof.
  assert (Hwf : Forall wf_task
                  [example_task; new_task 1762112345999 (lit "later") example_page]).
  { repeat constructor; unfold wf_task, is_safe_integer; simpl; lia. }
  split; [exact Hwf|].
  exact (renderTasks_rows
           [example_task; new_task 1762112345999 (lit "later") example_page]
           example_page Hwf).
Defined.

(** ** escapeHtml *)

Lemma get_innerHTML_add_unit (c : N) (nodes : list Node) :
  get_innerHTML (add_unit c nodes) = escape_unit c ++ get_innerHTML nodes.
Proof.
  unfold get_innerHTML.
  destruct nodes as [|[t|] ns]; cbn [add_unit flat_map serialize_node].
  - rewrite !app_nil_r. reflexivity.
  - rewrite <- app_assoc. reflexivity.
  - rewrite app_nil_r. reflexivity.
Qed.

Lemma escape_text_unit (c : N) (r : jsstring) :
  (c =? 13) = false -> (c =? 10) = false ->
  escape_text (c :: r) = escape_unit c ++ escape_text r.
Proof.
  intros H13 H10. unfold escape_text. cbn [set_innerText].
  rewrite H13, H10. apply get_innerHTML_add_unit.
Qed.

Lemma cell_text_escape_unit (c : N) (m : jsstring) :
  (c =? 13) = false -> (c =? 10) = false ->
  cell_text (escape_unit c ++ m) =
  if c =? 0 then cell_text m else option_map (cons c) (cell_text m).
Proof.
  intros H13 H10. unfold escape_unit.
  destruct (c =? 38) eqn:E38; [apply N.eqb_eq in E38; subst; reflexivity|].
  destruct (c =? 160) eqn:E160; [apply N.eqb_eq in E160; subst; reflexivity|].
  destruct (c =? 60) eqn:E60; [apply N.eqb_eq in E60; subst; reflexivity|].
  destruct (c =? 62) eqn:E62; [apply N.eqb_eq in E62; subst; reflexivity|].
  cbn [app cell_text]. rewrite E60, E38, H13, H10. reflexivity.
Qed.

Lemma cell_text_br (m : jsstring) :
  cell_text (lit "<br>" ++ m) = option_map (cons 10) (cell_text m).
Proof. reflexivity. Qed.

Lemma escape_text_br (r : jsstring) :
  escape_text (10 :: r) = lit "<br>" ++ escape_text r.
Proof. reflexivity. Qed.

Lemma escape_text_cr (r : jsstring) :
  escape_text (13 :: r) =
  lit "<br>" ++ escape_text match r with
                            | d :: r' => if d =? 10 then r' else r
                            | [] => []
                            end.
Proof.
  unfold escape_text. cbn [set_innerText]. change (13 =? 13) with true. cbv iota.
  destruct r as [|d r']; [reflexivity|]. destruct (d =? 10); reflexivity.
Qed.

Lemma cell_text_escape_text (s : jsstring) :
  cell_text (escape_text s) = Some (shown_text s).
Proof.
  remember (length s) as n eqn:Hn.
  assert (Hle : (length s <= n)%nat) by lia. clear Hn.
  revert s Hle. induction n as [|n IH]; intros s Hle.
  - destruct s; [reflexivity | simpl in Hle; lia].
  - destruct s as [|c r]; [reflexivity|]. cbn [length] in Hle.
    destruct (c =? 13) eqn:E13.
    { apply N.eqb_eq in E13. subst c. rewrite escape_text_cr, cell_text_br.
      cbn [shown_text]. change (13 =? 13) with true. cbv iota.
      destruct r as [|d r'].
      - reflexivity.
      - cbn [length] in Hle. destruct (d =? 10); rewrite IH by (cbn [length]; lia);
          reflexivity. }
    destruct (c =? 10) eqn:E10.
    { apply N.eqb_eq in E10. subst c. rewrite escape_text_br, cell_text_br.
      rewrite IH by lia. reflexivity. }
    rewrite escape_text_unit, cell_text_escape_unit by assumption.
    rewrite IH by lia. cbn [shown_text]. rewrite E13.
    destruct (c =? 0); reflexivity.
Qed.

Lemma shown_text_plain (s : jsstring) :
  forallb (fun c => negb (c =? 13) && negb (c =? 0)) s = true ->
  shown_text s = s.
Proof.
  induction s as [|c r IH]; [reflexivity|]. cbn [forallb shown_text].
  intros H. apply andb_prop in H as [Hc Hr]. apply andb_prop in Hc as [H13 H0].
  destruct (c =? 13); [discriminate|]. destruct (c =? 0); [discriminate|].
  f_equal. auto.
Qed.

(** C5.  The title of a task goes into the markup of its row through
    [escapeHtml].  What [escapeHtml] returns reads back, as the content of
    a table cell, as plain text: the characters of the title, line ends as
    line breaks and U+0000 dropped, with no tag and no other character
    reference in it; in particular ["<"], [">"], ["&"] and the quote
    characters come back as themselves.  The title
    [<script>alert(1)</script>] is written with [&lt;] and [&gt;] and reads
    back as that text. *)
Theorem title_rendered_as_text (title : jsstring) :
  (forall (id : Z) (status createdAt : jsstring) (p : Page),
     render_row (task_object {| task_id := id; task_title := title;
                                task_status := status;
                                task_createdAt := createdAt |}) p =
     appendChild (Tr (row_markup (escape_text title) status createdAt
                        (number_to_string (num_of_Z id)))) p) /\
  (forall p, escapeHtml (JStr title) p = (Normal (escape_text title), p)) /\
  cell_text (escape_text title) = Some (shown_text title) /\
  (forallb (fun c => negb (c =? 13) && negb (c =? 0)) title = true ->
   cell_text (escape_text title) = Some title) /\
  escape_text (lit "<script>alert(1)</script>") =
    lit "&lt;script&gt;alert(1)&lt;/script&gt;" /\
  cell_text (escape_text (lit "<script>alert(1)</script>")) =
    Some (lit "<script>alert(1)</script>") /\
  cell_text (escape_text (lit "<>&'" ++ [34])) = Some (lit "<>&'" ++ [34]).
Proof.
  repeat split.
  - apply cell_text_escape_text.
  - intros H. rewrite cell_text_escape_text, shown_text_plain by exact H. reflexivity.
Qed.







(** ** The sync adapter *)

Lemma sendTaskToSheet_task (t : Task) (p : Page) :
  sendTaskToSheet (task_object t) p =
  (Normal tt, add_event (sheet_request (task_title t) (task_status t)) p).
Proof.
  unfold sendTaskToSheet, sheet_request, title_status_json. run_script.
  change (get_prop (task_object t) (lit "title")) with (Normal (A:=JsVal) (JStr (task_title t))).
  change (get_prop (task_object t) (lit "status")) with (Normal (A:=JsVal) (JStr (task_status t))).
  cbv iota beta. unfold JSON_stringify. cbn [stringify join]. rewrite <- !app_assoc.
  reflexivity.
Qed.

Lemma showSaveMessage_run (text : jsstring) (isError : bool) (p : Page) :
  showSaveMessage text isError p = (Normal tt, message_shown text isError p).
Proof. reflexivity. Qed.

(** The object [{title, status}] is what the body of the request reads back
    as. *)
Lemma JSON_parse_title_status (title status : jsstring) :
  JSON_parse (title_status_json title status) =
  Some (JObj [(lit "title", JStr title); (lit "status", JStr status)]).
Proof.
  unfold JSON_parse.
  assert (Hf : exists f, (2 * length (title_status_json title status) + 1 =
                          S (S (S (S f))))%nat).
  { unfold title_status_json. exists (2 * length (title_status_json title status) - 3)%nat.
    unfold title_status_json. rewrite !length_app. cbn [length lit List.map list_ascii_of_string].
    lia. }
  destruct Hf as (f & ->).
  unfold title_status_json. change (lit "{") with [123]. change (lit ":") with [58].
  change (lit ",") with [44]. change (lit "}") with [125].
  cbn [app]. repeat (rewrite <- !app_assoc; cbn [app]).
  rewrite parse_value_object.
  erewrite parse_members_more by apply parse_value_quote.
  erewrite parse_members_last by apply parse_value_quote.
  reflexivity.
Qed.


(** C9.  The direct POST variant sends a request whose body is the JSON
    text of the object with the two properties [title] and [status] of the
    task.  When the request ends with a status in the range 200 to 299 the
    message "Saved to Sheet" is shown; when it ends with another status, or
    is rejected, or its body cannot be read, the error detail goes to
    [console.error] and the message "Could not save to Sheet. Please try
    again." is shown as an error.  The message is visible until its timer
    of 1800 ms runs.  Whatever the outcome, no further request is sent. *)
Theorem sendTaskToSheet_direct_post (t : Task) (p : Page) :
  sendTaskToSheet (task_object t) p =
    (Normal tt, add_event (sheet_request (task_title t) (task_status t)) p) /\
  JSON_parse (title_status_json (task_title t) (task_status t)) =
    Some (JObj [(lit "title", JStr (task_title t));
                (lit "status", JStr (task_status t))]) /\
  (forall status text,
     sendTaskToSheet_resume (Responded status text) p =
     (Normal tt,
      if response_ok status then message_shown (lit "Saved to Sheet") false p
      else message_shown could_not_save true
             (add_event
                (EConsoleError
                   [lit "Could not save to Google Sheet (HTTP " ++
                    digits status ++ lit "):"; text]) p))) /\
  (forall error,
     sendTaskToSheet_resume (Rejected error) p =
     (Normal tt,
      message_shown could_not_save true
        (add_event
           (EConsoleError [lit "Could not save to Google Sheet:"; error]) p))) /\
  (forall status error,
     sendTaskToSheet_resume (RespondedUnreadable status error) p =
     (Normal tt,
      if response_ok status then message_shown (lit "Saved to Sheet") false p
      else message_shown could_not_save true
             (add_event
                (EConsoleError [lit "Could not save to Google Sheet:"; error]) p))) /\
  (forall text isError q,
     saveMessage (message_shown text isError q) =
       {| textContent := text; class_error := isError; class_visible := true |} /\
     saveMessage (snd (saveMessage_timeout (message_shown text isError q))) =
       {| textContent := text; class_error := isError; class_visible := false |}) /\
  (forall o, exists evs,
     trace (snd (sendTaskToSheet_resume o p)) = trace p ++ evs /\
     forallb (fun e => negb (is_fetch_event e)) evs = true).
Proof.
  split; [apply sendTaskToSheet_task|].
  split; [apply JSON_parse_title_status|].
  split. { intros status text. cbn [sendTaskToSheet_resume]. destruct (response_ok status); reflexivity. }
  split. { intros error. reflexivity. }
  split. { intros status error. cbn [sendTaskToSheet_resume]. destruct (response_ok status); reflexivity. }
  split. { intros text isError q. split; reflexivity. }
  intros [error | status text | status error]; cbn [sendTaskToSheet_resume];
    try destruct (response_ok status);
    (eexists; split; [cbn; rewrite <- ?app_assoc; reflexivity | reflexivity]).
Qed.

(** ** Adding a task *)

Lemma trim_start_spec (s : jsstring) :
  exists a, s = a ++ trim_start s /\ forallb is_js_space a = true /\
            match trim_start s with
            | [] => True
            | c :: _ => is_js_space c = false
            end.
Proof.
  induction s as [|c s (a & Hs & Ha & Hh)].
  - exists []. repeat split.
  - cbn [trim_start]. destruct (is_js_space c) eqn:E.
    + exists (c :: a). cbn [app forallb]. rewrite E, Ha. repeat split; [congruence | exact Hh].
    + exists []. repeat split. exact E.
Qed.

Lemma trim_spec (s : jsstring) : trimmed_of s (trim s).
Proof.
  unfold trim, trim_end, trimmed_of.
  destruct (trim_start_spec s) as (a & Hs & Ha & Hh).
  set (u := trim_start s) in *.
  destruct (trim_start_spec (rev u)) as (b & Hu & Hb & Hl).
  set (w := trim_start (rev u)) in *.
  assert (Eu : u = rev w ++ rev b).
  { rewrite <- rev_app_distr, <- Hu, rev_involutive. reflexivity. }
  split.
  - exists a, (rev b). rewrite Hs at 1. rewrite Eu at 1. repeat split; auto.
    rewrite forallb_forall in *. intros x Hx. apply Hb, in_rev. exact Hx.
  - destruct (rev w) as [|c r] eqn:Er; [exact I|].
    split.
    + rewrite Eu in Hh. exact Hh.
    + destruct w as [|d w']; [discriminate|].
      cbn [rev] in Er. rewrite <- Er, List.last_last. exact Hl.
Qed.

Lemma addTask_run (now : Z) (locale_now : jsstring) (p : Page) :
  trim (taskTitleInput p) <> [] ->
  let t := new_task now locale_now p in
  let p1 := saved (set_tasks (tasks p ++ [task_object t]) p) in
  addTask now locale_now p =
  match renderTasks p1 with
  | (Normal _, p2) =>
      (Normal JUndefined,
       add_event EFocusTitle
         (set_taskTitleInput []
            (add_event (sheet_request (task_title t) (task_status t)) p2)))
  | (Thrown e, p2) => (Thrown e, p2)
  end.
Proof.
  intros Hne t p1. unfold addTask. run_script.
  destruct (trim (taskTitleInput p)) as [|c r] eqn:E; [congruence|].
  replace (JObj [(lit "id", JNum (num_of_Z now)); (lit "title", JStr (c :: r));
                 (lit "status", JStr (taskStatusSelect p));
                 (lit "createdAt", JStr locale_now)])
    with (task_object t) by (unfold t, new_task, task_object; cbn; rewrite E; reflexivity).
  rewrite saveTasks_run. fold p1.
  destruct (renderTasks p1) as [[u|e] p2]; [|reflexivity].
  rewrite sendTaskToSheet_task. reflexivity.
Qed.

Lemma map_task_object_app (ts : list Task) (t : Task) :
  List.map task_object ts ++ [task_object t] = List.map task_object (ts ++ [t]).
Proof. rewrite map_app. reflexivity. Qed.

(** C7, as the script has it.  With a title that is not blank, and a list
    of task records on the page, [addTask] builds a task whose id is the
    clock reading in milliseconds, whose title is the input without the
    white space at its ends and is not empty, whose status is the selected
    one and whose createdAt is the locale string of the clock; it puts the
    task at the end of the list, stores the whole list, draws it, hands
    the task to [sendTaskToSheet] and empties the title input.  The call
    returns [undefined]. *)
Theorem addTask_appends (now : Z) (locale_now : jsstring) (ts : list Task)
    (p : Page) :
  trim (taskTitleInput p) <> [] ->
  tasks p = List.map task_object ts ->
  let t := new_task now locale_now p in
  let r := addTask now locale_now p in
  task_id t = now /\
  trimmed_of (taskTitleInput p) (task_title t) /\ task_title t <> [] /\
  task_status t = taskStatusSelect p /\
  task_createdAt t = locale_now /\
  fst r = Normal JUndefined /\
  tasks (snd r) = List.map task_object (ts ++ [t]) /\
  localStorage (snd r) !! STORAGE_KEY =
    Some (tasks_json (List.map task_object (ts ++ [t]))) /\
  taskTableBody (snd r) = List.map task_row (ts ++ [t]) /\
  In (sheet_request (task_title t) (task_status t)) (trace (snd r)) /\
  taskTitleInput (snd r) = [].
Proof.
  intros Hne Hp t r. subst r. rewrite addTask_run by exact Hne. fold t.
  rewrite (renderTasks_tasks (ts ++ [t]))
    by (cbn [tasks saved add_event set_localStorage set_tasks];
        rewrite Hp; apply map_task_object_app).
  cbn [fst snd]. rewrite Hp, map_task_object_app.
  split; [reflexivity|]. split; [apply trim_spec|]. split; [exact Hne|].
  split; [reflexivity|]. split; [reflexivity|]. split; [reflexivity|].
  split; [reflexivity|].
  split. { cbn. apply lookup_insert_eq. }
  split. { cbn. destruct ts; reflexivity. }
  split. { cbn. rewrite !in_app_iff. left. right. left. reflexivity. }
  reflexivity.
Qed.


Lemma addTask_appends_witness :
  let t := new_task 1762112345678 (lit "11/2/2026, 8:34:00 PM") example_page in
  let r := addTask 1762112345678 (lit "11/2/2026, 8:34:00 PM") example_page in
  task_id t = 1762112345678%Z /\
  trimmed_of (taskTitleInput example_page) (task_title t) /\ task_title t <> [] /\
  task_status t = taskStatusSelect example_page /\
  task_createdAt t = lit "11/2/2026, 8:34:00 PM" /\
  fst r = Normal JUndefined /\
  tasks (snd r) = List.map task_object ([] ++ [t]) /\
  localStorage (snd r) !! STORAGE_KEY =
    Some (tasks_json (List.map task_object ([] ++ [t]))) /\
  taskTableBody (snd r) = List.map task_row ([] ++ [t]) /\
  In (sheet_request (task_title t) (task_status t)) (trace (snd r)) /\
  taskTitleInput (snd r) = [].
Proof.
  apply (addTask_appends 1762112345678 (lit "11/2/2026, 8:34:00 PM") [] example_page).
  - vm_compute. discriminate.
  - reflexivity.
Defined.

(** C7 as stated fails in its last part: the call does not return the new
    task, it returns [undefined]. *)
Lemma addTask_returns_undefined :
  let t := new_task 1762112345678 (lit "11/2/2026, 8:34:00 PM") example_page in
  let r := addTask 1762112345678 (lit "11/2/2026, 8:34:00 PM") example_page in
  trim (taskTitleInput example_page) = lit "Buy milk" /\
  tasks (snd r) = [task_object t] /\
  fst r = Normal JUndefined /\
  fst r <> Normal (task_object t).
Proof.
  cbv zeta. repeat split; try (vm_compute; reflexivity).
  vm_compute. discriminate.
Qed.

(** C8.  When [addTask] adds a task and completes, what it does happens in
    this order: the whole list is stored, the table is cleared and its rows
    are appended, the request is handed to [fetch], the title input gets
    the focus.  The item in [localStorage] is the stored text.  However the
    request ends, the rest of [sendTaskToSheet] leaves the task list, the
    stored items and the table as they are and throws nothing. *)
Theorem addTask_order (now : Z) (locale_now : jsstring) (p : Page) :
  trim (taskTitleInput p) <> [] ->
  fst (addTask now locale_now p) = Normal JUndefined ->
  let p' := snd (addTask now locale_now p) in
  let t := new_task now locale_now p in
  trace p' =
    trace p ++
    [ESetItem STORAGE_KEY (tasks_json (tasks p'))] ++
    (EClearRows :: List.map EAppendRow (taskTableBody p')) ++
    [sheet_request (task_title t) (task_status t); EFocusTitle] /\
  tasks p' = tasks p ++ [task_object t] /\
  localStorage p' !! STORAGE_KEY = Some (tasks_json (tasks p')) /\
  (forall o : FetchOutcome,
     fst (sendTaskToSheet_resume o p') = Normal tt /\
     tasks (snd (sendTaskToSheet_resume o p')) = tasks p' /\
     localStorage (snd (sendTaskToSheet_resume o p')) = localStorage p' /\
     taskTableBody (snd (sendTaskToSheet_resume o p')) = taskTableBody p').
Proof.
  intros Hne. rewrite addTask_run by exact Hne.
  set (t := new_task now locale_now p).
  set (p1 := saved (set_tasks (tasks p ++ [task_object t]) p)).
  destruct (renderTasks_cases p1) as (c & rows & ->).
  destruct c as [u|e]; [|discriminate]. intros _ p' t'. subst p' t'. cbn [snd].
  split.
  { cbn. rewrite <- !app_assoc. reflexivity. }
  split; [reflexivity|].
  split. { cbn. apply lookup_insert_eq. }
  intros [error | status text | status error]; cbn [sendTaskToSheet_resume];
    try destruct (response_ok status); repeat split.
Qed.

Lemma addTask_order_witness :
  let p' := snd (addTask 1762112345678 (lit "11/2/2026, 8:34:00 PM") example_page) in
  let t := new_task 1762112345678 (lit "11/2/2026, 8:34:00 PM") example_page in
  trace p' =
    trace example_page ++
    [ESetItem STORAGE_KEY (tasks_json (tasks p'))] ++
    (EClearRows :: List.map EAppendRow (taskTableBody p')) ++
    [sheet_request (task_title t) (task_status t); EFocusTitle] /\
  tasks p' = tasks example_page ++ [task_object t] /\
  localStorage p' !! STORAGE_KEY = Some (tasks_json (tasks p')) /\
  (forall o : FetchOutcome,
     fst (sendTaskToSheet_resume o p') = Normal tt /\
     tasks (snd (sendTaskToSheet_resume o p')) = tasks p' /\
     localStorage (snd (sendTaskToSheet_resume o p')) = localStorage p' /\
     taskTableBody (snd (sendTaskToSheet_resume o p')) = taskTableBody p').
Proof.
  apply (addTask_order 1762112345678 (lit "11/2/2026, 8:34:00 PM") example_page).
  - vm_compute. discriminate.
  - vm_compute. reflexivity.
Defined.

(** ** Removing a task *)

Lemma strict_neq_num_id (a z : Z) :
  strict_neq_num (JNum (num_of_Z a)) (num_of_Z z) = negb (a =? z)%Z.
Proof.
  unfold strict_neq_num, num_eqb, num_of_Z. cbn [mant scale].
  change (10 ^ Z.of_nat 0)%Z with 1%Z. rewrite !Z.mul_1_r. reflexivity.
Qed.

Lemma filter_tasks_tasks (z : Z) (ts : list Task) :
  filter_tasks (num_of_Z z) (List.map task_object ts) =
  Normal (List.map task_object (without_id z ts)).
Proof.
  induction ts as [|t ts IH]; [reflexivity|].
  cbn [List.map filter_tasks].
  change (get_prop (task_object t) (lit "id"))
    with (Normal (A:=JsVal) (JNum (num_of_Z (task_id t)))).
  cbv iota. rewrite IH, strict_neq_num_id.
  unfold without_id. cbn [List.filter].
  destruct (negb (task_id t =? z)%Z); reflexivity.
Qed.

Lemma deleteTask_run (z : Z) (ts : list Task) (p : Page) :
  tasks p = List.map task_object ts ->
  deleteTask (num_of_Z z) p =
  (Normal tt,
   appended (rows_of (without_id z ts))
     (cleared (saved (set_tasks (List.map task_object (without_id z ts)) p)))).
Proof.
  intros Hp. unfold deleteTask. run_script.
  rewrite Hp, filter_tasks_tasks, saveTasks_run.
  rewrite (renderTasks_tasks (without_id z ts)) by reflexivity. reflexivity.
Qed.

Lemma without_id_forall (z : Z) (ts : list Task) :
  Forall (fun t => task_id t <> z) (without_id z ts).
Proof.
  unfold without_id. apply List.Forall_forall. intros t Ht.
  apply filter_In in Ht as [_ Ht]. apply negb_true_iff, Z.eqb_neq in Ht. exact Ht.
Qed.

Lemma without_id_absent (z : Z) (ts : list Task) :
  Forall (fun t => task_id t <> z) ts -> without_id z ts = ts.
Proof.
  unfold without_id. induction 1 as [|t ts Ht Hts IH]; [reflexivity|].
  cbn [List.filter]. apply Z.eqb_neq in Ht. rewrite Ht. cbn [negb]. f_equal. exact IH.
Qed.

Lemma without_id_idempotent (z : Z) (ts : list Task) :
  without_id z (without_id z ts) = without_id z ts.
Proof. apply without_id_absent, without_id_forall. Qed.

Lemma without_id_wf (z : Z) (ts : list Task) :
  Forall wf_task ts -> Forall wf_task (without_id z ts).
Proof.
  unfold without_id. rewrite !List.Forall_forall. intros H t Ht.
  apply filter_In in Ht as [Ht _]. auto.
Qed.

(** C4.  After [deleteTask(id)] on a list of well-formed tasks, the stored
    text is that of a list with no task of that id, and [loadTasks] returns
    that list.  When no task has the id, the list stays as it was; in
    every case nothing is thrown. *)
Theorem deleteTask_removes (z : Z) (ts : list Task) (p : Page) :
  Forall wf_task ts ->
  let r := deleteTask (num_of_Z z) (set_tasks (List.map task_object ts) p) in
  exists left_ts,
    fst r = Normal tt /\
    Forall (fun t => task_id t <> z) left_ts /\
    localStorage (snd r) !! STORAGE_KEY =
      Some (tasks_json (List.map task_object left_ts)) /\
    JSON_parse (tasks_json (List.map task_object left_ts)) =
      Some (JArr (List.map task_object left_ts)) /\
    fst (loadTasks (snd r)) = Normal (List.map task_object left_ts) /\
    (Forall (fun t => task_id t <> z) ts ->
     left_ts = ts /\ tasks (snd r) = List.map task_object ts).
Proof.
  intros Hwf r. subst r. rewrite (deleteTask_run z ts) by reflexivity.
  exists (without_id z ts). cbn [fst snd].
  pose proof (without_id_wf z ts Hwf) as Hwf'.
  assert (Hl : localStorage
                 (appended (rows_of (without_id z ts))
                    (cleared (saved (set_tasks (List.map task_object (without_id z ts))
                                       (set_tasks (List.map task_object ts) p)))))
               !! STORAGE_KEY = Some (tasks_json (List.map task_object (without_id z ts)))).
  { cbn. apply lookup_insert_eq. }
  split; [reflexivity|]. split; [apply without_id_forall|].
  split; [exact Hl|]. split; [apply tasks_json_tasks; exact Hwf'|].
  split.
  - rewrite loadTasks_run. cbn [fst]. rewrite Hl.
    pose proof (tasks_json_tasks _ Hwf') as HP.
    destruct (tasks_json_head (List.map task_object (without_id z ts))) as (r & Hr).
    rewrite Hr in HP |- *. rewrite HP. reflexivity.
  - intros Habs. rewrite (without_id_absent z ts Habs). split; reflexivity.
Qed.

Lemma deleteTask_removes_witness :
  let r := deleteTask (num_of_Z 1762112345678)
             (set_tasks (List.map task_object [example_task]) (blank_page ∅ [] [])) in
  exists left_ts,
    fst r = Normal tt /\
    Forall (fun t => task_id t <> 1762112345678%Z) left_ts /\
    localStorage (snd r) !! STORAGE_KEY =
      Some (tasks_json (List.map task_object left_ts)) /\
    JSON_parse (tasks_json (List.map task_object left_ts)) =
      Some (JArr (List.map task_object left_ts)) /\
    fst (loadTasks (snd r)) = Normal (List.map task_object left_ts) /\
    (Forall (fun t => task_id t <> 1762112345678%Z) [example_task] ->
     left_ts = [example_task] /\
     tasks (snd r) = List.map task_object [example_task]).
Proof.
  apply (deleteTask_removes 1762112345678 [example_task] (blank_page ∅ [] [])).
  repeat constructor. unfold wf_task, is_safe_integer. simpl. lia.
Defined.

(** C10.  [deleteTask(id)] on a list of tasks keeps exactly the tasks whose
    id differs from [id], in their order and as they were; none of the
    tasks left has the id, so all the tasks that shared it are gone; and
    removing the same id once more changes nothing. *)
Theorem deleteTask_filters (z : Z) (ts : list Task) (p : Page) :
  let r := deleteTask (num_of_Z z) (set_tasks (List.map task_object ts) p) in
  fst r = Normal tt /\
  tasks (snd r) =
    List.map task_object (List.filter (fun t => negb (task_id t =? z)%Z) ts) /\
  Forall (fun t => task_id t <> z)
    (List.filter (fun t => negb (task_id t =? z)%Z) ts) /\
  fst (deleteTask (num_of_Z z) (snd r)) = Normal tt /\
  tasks (snd (deleteTask (num_of_Z z) (snd r))) = tasks (snd r).
Proof.
  intros r. subst r. rewrite (deleteTask_run z ts) by reflexivity. cbn [fst snd].
  rewrite (deleteTask_run z (without_id z ts)) by reflexivity. cbn [fst snd].
  split; [reflexivity|]. split; [reflexivity|]. split; [apply without_id_forall|].
  split; [reflexivity|]. cbn [tasks appended cleared saved add_event set_localStorage
    set_taskTableBody set_tasks]. rewrite without_id_idempotent. reflexivity.
Qed.

(** Two tasks made in the same millisecond go together. *)
Example deleteTask_shared_id :
  let a := {| task_id := 5; task_title := lit "a"; task_status := lit "pending";
              task_createdAt := lit "x" |} in
  let b := {| task_id := 7; task_title := lit "b"; task_status := lit "done";
              task_createdAt := lit "y" |} in
  let c := {| task_id := 5; task_title := lit "c"; task_status := lit "pending";
              task_createdAt := lit "x" |} in
  tasks (snd (deleteTask (num_of_Z 5)
                (set_tasks (List.map task_object [a; b; c]) (blank_page ∅ [] [])))) =
  [task_object b].
Proof. vm_compute. reflexivity. Qed.

(** ** More on the store *)

Lemma loadTasks_array (p : Page) (text : jsstring) (l : list JsVal) :
  localStorage p !! STORAGE_KEY = Some text ->
  JSON_parse text = Some (JArr l) ->
  loadTasks p = (Normal l, p).
Proof.
  intros Hs Hp. rewrite loadTasks_run, Hs.
  destruct text as [|c r]; [discriminate|]. rewrite Hp. reflexivity.
Qed.

(** X1.  A stored JSON array is what [loadTasks] returns, whatever its elements
    are; the page is left as it was. *)
Theorem loadTasks_returns_array (p : Page) (text : jsstring) (l : list JsVal) :
  localStorage p !! STORAGE_KEY = Some text ->
  JSON_parse text = Some (JArr l) ->
  loadTasks p = (Normal l, p).
Proof. apply loadTasks_array. Qed.

Lemma loadTasks_returns_array_witness :
  loadTasks (blank_page {[STORAGE_KEY := lit "[true, null]"]} [] []) =
  (Normal [JBool true; JNull], blank_page {[STORAGE_KEY := lit "[true, null]"]} [] []).
Proof.
  apply (loadTasks_returns_array _ (lit "[true, null]")).
  - vm_compute. reflexivity.
  - vm_compute. reflexivity.
Defined.

(** ** Elements that are not objects *)

Lemma render_rows_null (pre : list Task) (rest : list JsVal) (p : Page) :
  render_rows (List.map task_object pre ++ JNull :: rest) p =
  (Thrown TypeError, appended (List.map task_row pre) p).
Proof.
  revert p. induction pre as [|t pre IH]; intros p.
  - cbn [List.map app render_rows]. run_script.
    change (render_row JNull p) with (Thrown (A:=unit) TypeError, p).
    rewrite appended_nil. reflexivity.
  - cbn [List.map app render_rows]. run_script.
    rewrite render_row_task, IH, appended_app. reflexivity.
Qed.

Lemma renderTasks_null (pre : list Task) (rest : list JsVal) (p : Page) :
  tasks p = List.map task_object pre ++ JNull :: rest ->
  renderTasks p =
  (Thrown TypeError, appended (List.map task_row pre) (cleared p)).
Proof.
  intros Hp. unfold renderTasks. run_script.
  change (add_event EClearRows (set_taskTableBody [] p)) with (cleared p).
  change (tasks (cleared p)) with (tasks p). rewrite Hp.
  destruct (List.map task_object pre ++ JNull :: rest) as [|v l] eqn:E.
  { destruct pre; discriminate. }
  cbv iota. rewrite <- E. apply render_rows_null.
Qed.

(** X2.  [renderTasks] on a list with a [null] in it draws the rows of the task
    records before the [null] and then throws a TypeError: the rows of the
    tasks after it are never drawn. *)
Theorem renderTasks_null_element (pre : list Task) (rest : list JsVal) (p : Page) :
  tasks p = List.map task_object pre ++ JNull :: rest ->
  renderTasks p =
  (Thrown TypeError, appended (List.map task_row pre) (cleared p)).
Proof. apply renderTasks_null. Qed.

Lemma renderTasks_null_element_witness :
  renderTasks (set_tasks (List.map task_object [example_task] ++ JNull :: [JBool true])
                 example_page) =
  (Thrown TypeError,
   appended (List.map task_row [example_task])
     (cleared (set_tasks (List.map task_object [example_task] ++ JNull :: [JBool true])
                 example_page))).
Proof.
  apply (renderTasks_null_element [example_task] [JBool true]). reflexivity.
Defined.

(** X3.  The script stops at startup on such a stored array: [loadTasks]
    returns it and the first [renderTasks] throws. *)
Theorem init_null_element (p : Page) (text : jsstring) (pre : list Task)
    (rest : list JsVal) :
  localStorage p !! STORAGE_KEY = Some text ->
  JSON_parse text = Some (JArr (List.map task_object pre ++ JNull :: rest)) ->
  init p =
  (Thrown TypeError,
   appended (List.map task_row pre)
     (cleared (set_tasks (List.map task_object pre ++ JNull :: rest) p))).
Proof.
  intros Hs Hp. unfold init. run_script.
  rewrite (loadTasks_array p text _ Hs Hp).
  apply (renderTasks_null pre rest). reflexivity.
Qed.

Lemma init_null_element_witness :
  init (blank_page {[STORAGE_KEY := lit "[null]"]} [] []) =
  (Thrown TypeError,
   appended (List.map task_row [])
     (cleared (set_tasks (List.map task_object [] ++ JNull :: [])
                 (blank_page {[STORAGE_KEY := lit "[null]"]} [] [])))).
Proof.
  apply (init_null_element _ (lit "[null]") [] []).
  - vm_compute. reflexivity.
  - vm_compute. reflexivity.
Defined.

Lemma filter_tasks_null (n : number) (l : list JsVal) :
  In JNull l -> filter_tasks n l = Thrown TypeError.
Proof.
  induction l as [|v l IH]; [contradiction|]. intros [-> | Hin]; [reflexivity|].
  cbn [filter_tasks]. destruct (get_prop v (lit "id")) as [x|[]]; [|reflexivity].
  rewrite (IH Hin). reflexivity.
Qed.

(** X4.  [deleteTask] on a list with a [null] in it throws a TypeError before it
    changes anything: the list, the stored item, the table and the trace
    are as they were. *)
Theorem deleteTask_null_element (n : number) (p : Page) :
  In JNull (tasks p) -> deleteTask n p = (Thrown TypeError, p).
Proof.
  intros Hin. unfold deleteTask. run_script.
  rewrite (filter_tasks_null n _ Hin). reflexivity.
Qed.

Lemma deleteTask_null_element_witness :
  deleteTask (num_of_Z 5) (set_tasks [JNull] example_page) =
  (Thrown TypeError, set_tasks [JNull] example_page).
Proof.
  apply (deleteTask_null_element (num_of_Z 5) (set_tasks [JNull] example_page)).
  left. reflexivity.
Defined.

Lemma render_rows_throws (l : list JsVal) (p : Page) :
  In JNull l -> exists rows, render_rows l p = (Thrown TypeError, appended rows p).
Proof.
  revert p. induction l as [|v l IH]; [contradiction|]. intros p Hin.
  cbn [render_rows]. run_script.
  destruct (render_row_cases v p) as [([] & ->) | (row & Hrow)].
  { exists []. rewrite appended_nil. reflexivity. }
  destruct Hin as [-> | Hin]; [discriminate Hrow|].
  rewrite Hrow. destruct (IH (appended [row] p) Hin) as (rows & ->).
  exists ([row] ++ rows). rewrite appended_app. reflexivity.
Qed.

Lemma renderTasks_throws (p : Page) :
  In JNull (tasks p) ->
  exists rows, renderTasks p = (Thrown TypeError, appended rows (cleared p)).
Proof.
  intros Hin. unfold renderTasks. run_script.
  change (add_event EClearRows (set_taskTableBody [] p)) with (cleared p).
  change (tasks (cleared p)) with (tasks p).
  destruct (tasks p) as [|v l] eqn:E; [contradiction|].
  apply render_rows_throws. exact Hin.
Qed.

(** ** Adding a task, further *)

(** X5.  With a [null] in the list and a title that is not blank, [addTask]
    still appends the new task and stores the list, and then stops with the
    TypeError of [renderTasks]: no request is sent and the title input
    keeps its text. *)
Theorem addTask_null_element (now : Z) (locale_now : jsstring) (p : Page) :
  In JNull (tasks p) ->
  trim (taskTitleInput p) <> [] ->
  let t := new_task now locale_now p in
  let r := addTask now locale_now p in
  fst r = Thrown TypeError /\
  tasks (snd r) = tasks p ++ [task_object t] /\
  localStorage (snd r) !! STORAGE_KEY =
    Some (tasks_json (tasks p ++ [task_object t])) /\
  taskTitleInput (snd r) = taskTitleInput p /\
  exists rows,
    trace (snd r) =
    trace p ++ ESetItem STORAGE_KEY (tasks_json (tasks p ++ [task_object t]))
            :: EClearRows :: List.map EAppendRow rows.
Proof.
  intros Hin Hne t r. subst r. rewrite addTask_run by exact Hne. fold t.
  destruct (renderTasks_throws (saved (set_tasks (tasks p ++ [task_object t]) p)))
    as (rows & ->).
  { cbn. apply in_or_app. left. exact Hin. }
  cbn [fst snd]. split; [reflexivity|]. split; [reflexivity|].
  split. { cbn. apply lookup_insert_eq. }
  split; [reflexivity|]. exists rows. cbn. rewrite <- !app_assoc. reflexivity.
Qed.

Lemma addTask_null_element_witness :
  let p := set_tasks [JNull] example_page in
  let t := new_task 1762112345678 (lit "now") p in
  let r := addTask 1762112345678 (lit "now") p in
  fst r = Thrown TypeError /\
  tasks (snd r) = tasks p ++ [task_object t] /\
  localStorage (snd r) !! STORAGE_KEY =
    Some (tasks_json (tasks p ++ [task_object t])) /\
  taskTitleInput (snd r) = taskTitleInput p /\
  exists rows,
    trace (snd r) =
    trace p ++ ESetItem STORAGE_KEY (tasks_json (tasks p ++ [task_object t]))
            :: EClearRows :: List.map EAppendRow rows.
Proof.
  apply (addTask_null_element 1762112345678 (lit "now") (set_tasks [JNull] example_page)).
  - left. reflexivity.
  - vm_compute. discriminate.
Defined.

Lemma trim_start_nil_blank (s : jsstring) :
  trim_start s = [] -> forallb is_js_space s = true.
Proof.
  induction s as [|c s IH]; [reflexivity|]. cbn [trim_start forallb].
  destruct (is_js_space c); [auto | discriminate].
Qed.

Lemma forallb_rev (f : N -> bool) (s : jsstring) :
  forallb f (rev s) = true -> forallb f s = true.
Proof.
  rewrite !forallb_forall. intros H x Hx. apply H. apply -> in_rev. exact Hx.
Qed.

Lemma trim_nil_blank (s : jsstring) : trim s = [] -> forallb is_js_space s = true.
Proof.
  unfold trim, trim_end. intros H.
  assert (H1 : trim_start (rev (trim_start s)) = []).
  { rewrite <- (rev_involutive (trim_start (rev (trim_start s)))), H. reflexivity. }
  apply trim_start_nil_blank, forallb_rev in H1.
  destruct (trim_start_spec s) as (a & Hs & Ha & Hh).
  destruct (trim_start s) as [|c u] eqn:E; [apply trim_start_nil_blank; exact E|].
  cbn [forallb] in H1. rewrite Hh in H1. discriminate.
Qed.

(** X6.  [addTask] leaves the task list as it was exactly when the title is
    empty or all white space: any other title adds a task. *)
Theorem addTask_rejects_iff_blank (now : Z) (locale_now : jsstring) (p : Page) :
  tasks (snd (addTask now locale_now p)) = tasks p <->
  forallb is_js_space (taskTitleInput p) = true.
Proof.
  split.
  - intros H. apply trim_nil_blank.
    destruct (trim (taskTitleInput p)) as [|c u] eqn:E; [reflexivity|].
    exfalso. rewrite addTask_run in H by (rewrite E; discriminate).
    destruct (renderTasks_cases
                (saved (set_tasks (tasks p ++ [task_object (new_task now locale_now p)]) p)))
      as (c0 & rows & Hr).
    rewrite Hr in H. destruct c0; cbn in H;
      apply (f_equal (@length JsVal)) in H; rewrite length_app in H; cbn in H; lia.
  - intros H. unfold addTask. run_script. rewrite (trim_blank _ H). reflexivity.
Qed.

(** ** The sync adapter, further *)

(** X7.  [sendTaskToSheet] never throws and never touches the task list, the
    stored items or the table.  For [null] and [undefined] the TypeError of
    reading [task.title] is caught: it is logged, the error message is
    shown and nothing is sent.  For any other value one request is
    sent. *)
Theorem sendTaskToSheet_never_throws (task : JsVal) (p : Page) :
  exists p',
    sendTaskToSheet task p = (Normal tt, p') /\
    tasks p' = tasks p /\ localStorage p' = localStorage p /\
    taskTableBody p' = taskTableBody p /\
    match task with
    | JUndefined | JNull =>
        trace p' =
        trace p ++ [EConsoleError [lit "Could not save to Google Sheet:"; lit "TypeError"];
                    EShowMessage could_not_save true; ESetTimeout 1800]
    | _ =>
        exists body,
          trace p' =
          trace p ++ [EFetch API_URL (lit "POST") (lit "text/plain;charset=utf-8") body]
    end.
Proof.
  unfold sendTaskToSheet. run_script.
  destruct task as [| |b|n|s|l|ps]; cbn [get_prop];
    try (eexists; repeat split; [cbn; rewrite <- ?app_assoc; reflexivity]);
    try (eexists; repeat split; eexists; reflexivity).
  destruct (obj_lookup (lit "title") ps), (obj_lookup (lit "status") ps);
    eexists; repeat split; eexists; reflexivity.
Qed.

(** ** Removing a task, further *)

Lemma without_id_comm (a b : Z) (ts : list Task) :
  without_id a (without_id b ts) = without_id b (without_id a ts).
Proof.
  unfold without_id. induction ts as [|t ts IH]; [reflexivity|].
  cbn [List.filter].
  destruct (negb (task_id t =? b)%Z) eqn:Eb, (negb (task_id t =? a)%Z) eqn:Ea;
    cbn [List.filter]; rewrite ?Ea, ?Eb, IH; reflexivity.
Qed.

(** X8.  Removing two ids gives the same task list, the same table and the same
    stored items in either order. *)
Theorem deleteTask_commutes (a b : Z) (ts : list Task) (p : Page) :
  let p0 := set_tasks (List.map task_object ts) p in
  let pab := snd (deleteTask (num_of_Z b) (snd (deleteTask (num_of_Z a) p0))) in
  let pba := snd (deleteTask (num_of_Z a) (snd (deleteTask (num_of_Z b) p0))) in
  tasks pab = tasks pba /\
  taskTableBody pab = taskTableBody pba /\
  localStorage pab = localStorage pba.
Proof.
  intros p0 pab pba. subst pab pba p0.
  rewrite (deleteTask_run a ts (set_tasks (List.map task_object ts) p)),
          (deleteTask_run b ts (set_tasks (List.map task_object ts) p)) by reflexivity.
  cbn [snd].
  rewrite (deleteTask_run b (without_id a ts)), (deleteTask_run a (without_id b ts))
    by reflexivity.
  cbn [snd tasks taskTableBody localStorage appended cleared saved add_event
       set_localStorage set_taskTableBody set_tasks].
  rewrite (without_id_comm a b ts), !insert_insert_eq. repeat split.
Qed.

(** X9.  Adding a task and then removing its id brings back the task list, the
    table and the stored text of before, when no earlier task has that
    id. *)
Theorem add_then_delete (now : Z) (locale_now : jsstring) (ts : list Task)
    (p : Page) :
  trim (taskTitleInput p) <> [] ->
  tasks p = List.map task_object ts ->
  Forall (fun t => task_id t <> now) ts ->
  let r := deleteTask (num_of_Z now) (snd (addTask now locale_now p)) in
  fst r = Normal tt /\
  tasks (snd r) = tasks p /\
  taskTableBody (snd r) = rows_of ts /\
  localStorage (snd r) !! STORAGE_KEY = Some (tasks_json (tasks p)).
Proof.
  intros Hne Hp Hfresh r. subst r. rewrite addTask_run by exact Hne.
  set (t := new_task now locale_now p).
  rewrite (renderTasks_tasks (ts ++ [t]))
    by (cbn [tasks saved add_event set_localStorage set_tasks];
        rewrite Hp; apply map_task_object_app).
  cbn [snd]. rewrite (deleteTask_run now (ts ++ [t]))
    by (cbn; rewrite Hp; apply map_task_object_app).
  assert (Hw : without_id now (ts ++ [t]) = ts).
  { unfold without_id. rewrite List.filter_app. fold (without_id now ts).
    rewrite (without_id_absent now ts Hfresh). cbn [List.filter].
    change (task_id t) with now. rewrite Z.eqb_refl. cbn [negb]. apply app_nil_r. }
  rewrite Hw, Hp. cbn [fst snd]. split; [reflexivity|]. split; [reflexivity|].
  split; [reflexivity|]. cbn. apply lookup_insert_eq.
Qed.

Lemma add_then_delete_witness :
  let r := deleteTask (num_of_Z 1762112345678)
             (snd (addTask 1762112345678 (lit "now") example_page)) in
  fst r = Normal tt /\
  tasks (snd r) = tasks example_page /\
  taskTableBody (snd r) = rows_of [] /\
  localStorage (snd r) !! STORAGE_KEY = Some (tasks_json (tasks example_page)).
Proof.
  apply (add_then_delete 1762112345678 (lit "now") [] example_page).
  - vm_compute. discriminate.
  - reflexivity.
  - constructor.
Defined.

(** ** escapeHtml, further *)

Lemma escaped_piece_unit (c : N) : escaped_piece (escape_unit c).
Proof.
  unfold escape_unit, escaped_piece.
  destruct (c =? 38) eqn:E38; [tauto|].
  destruct (c =? 160) eqn:E160; [tauto|].
  destruct (c =? 60) eqn:E60; [tauto|].
  destruct (c =? 62) eqn:E62; [tauto|].
  apply N.eqb_neq in E38, E60, E62. do 5 right. exists c. auto.
Qed.

(** X10.  What [escapeHtml] returns is made of pieces that are the tag of a line
    break, one of the references [&amp;], [&lt;], [&gt;], [&nbsp;], or a
    single character other than ["<"], [">"] and ["&"]: no other tag and no
    other reference can be in it. *)
Theorem escape_text_pieces (s : jsstring) :
  exists pieces, escape_text s = concat pieces /\ Forall escaped_piece pieces.
Proof.
  unfold escape_text, get_innerHTML. generalize (set_innerText s). intros nodes.
  induction nodes as [|n nodes (pieces & Hc & Hf)].
  - exists []. split; [reflexivity | constructor].
  - destruct n as [data|].
    + exists (List.map escape_unit data ++ pieces). split.
      * cbn [flat_map serialize_node]. rewrite Hc, concat_app. f_equal.
        clear. induction data as [|c d IH]; [reflexivity|].
        cbn [flat_map List.map concat]. rewrite IH. reflexivity.
      * apply Forall_app. split; [|exact Hf].
        clear. induction data; constructor; auto using escaped_piece_unit.
    + exists (lit "<br>" :: pieces). split.
      * cbn [flat_map serialize_node concat]. rewrite Hc. reflexivity.
      * constructor; [left; reflexivity | exact Hf].
Qed.

(** X11.  A text without ["&"], ["<"], [">"], no-break space and line ends comes
    back from [escapeHtml] as it is. *)
Theorem escape_text_plain (s : jsstring) :
  forallb is_plain_unit s = true -> escape_text s = s.
Proof.
  induction s as [|c s IH]; [reflexivity|]. cbn [forallb]. intros H.
  apply andb_prop in H as [Hc Hs]. unfold is_plain_unit in Hc.
  apply negb_true_iff in Hc.
  apply orb_false_elim in Hc as [Hc H10]. apply orb_false_elim in Hc as [Hc H13].
  apply orb_false_elim in Hc as [Hc H62]. apply orb_false_elim in Hc as [Hc H60].
  apply orb_false_elim in Hc as [H38 H160].
  rewrite escape_text_unit by assumption. rewrite (IH Hs).
  unfold escape_unit. rewrite H38, H160, H60, H62. reflexivity.
Qed.

Lemma escape_text_plain_witness :
  escape_text (lit "Buy milk") = lit "Buy milk".
Proof. apply (escape_text_plain (lit "Buy milk")). reflexivity. Defined.

(** ** Number(string) and the delete buttons *)

Lemma trim_start_head (c : N) (s : jsstring) :
  is_js_space c = false -> trim_start (c :: s) = c :: s.
Proof. intros H. cbn [trim_start]. rewrite H. reflexivity. Qed.

Lemma trim_no_space_ends (s : jsstring) (c d : N) (u : jsstring) :
  s = c :: u -> is_js_space c = false -> is_js_space (List.last s d) = false ->
  trim s = s.
Proof.
  intros Hs Hc Hl. unfold trim, trim_end. rewrite Hs at 1.
  rewrite trim_start_head by exact Hc. rewrite <- Hs.
  destruct (rev s) as [|x w] eqn:E.
  { apply (f_equal (@rev N)) in E. rewrite rev_involutive in E. rewrite E. reflexivity. }
  assert (Hx : List.last s d = x).
  { rewrite <- (rev_involutive s), E. cbn [rev]. apply List.last_last. }
  rewrite Hx in Hl. rewrite trim_start_head by exact Hl.
  rewrite <- E. apply rev_involutive.
Qed.

Lemma is_digit_not_space (c : N) : is_digit c = true -> is_js_space c = false.
Proof.
  unfold is_digit. intros H. apply andb_prop in H as [H1 H2]. apply N.leb_le in H1, H2.
  unfold is_js_space.
  repeat (apply orb_false_intro); try (apply N.eqb_neq; lia).
  apply andb_false_intro1. apply N.leb_gt. lia.
Qed.

Lemma forallb_last (f : N -> bool) (s : jsstring) (d : N) :
  s <> [] -> forallb f s = true -> f (List.last s d) = true.
Proof.
  intros Hne H. rewrite forallb_forall in H. apply H.
  destruct (exists_last Hne) as (u & x & ->). rewrite List.last_last.
  apply in_or_app. right. left. reflexivity.
Qed.

(** The digits of an integer, with the minus sign of a negative one, as a
    decimal literal. *)
Lemma decimal_literal_digits (neg : bool) (c : N) (r : jsstring) :
  forallb is_digit (c :: r) = true ->
  decimal_literal ((if neg then [45] else []) ++ c :: r) =
  Finite (numeral_value neg (c :: r) [] 0).
Proof.
  intros Hds. pose proof Hds as Hall. cbn [forallb] in Hds.
  apply andb_prop in Hds as [Hd Hr].
  assert (Hc : (c =? 45) = false /\ (c =? 43) = false /\ (c =? 73) = false).
  { unfold is_digit in Hd. apply andb_prop in Hd as [H1 H2]. apply N.leb_le in H1, H2.
    repeat split; apply N.eqb_neq; lia. }
  destruct Hc as (H45 & H43 & H73).
  assert (Hsign : exp_sign ((if neg then [45] else []) ++ c :: r) = (neg, c :: r)).
  { destruct neg; cbn [app exp_sign]; [reflexivity|]. rewrite H45, H43. reflexivity. }
  unfold decimal_literal. rewrite Hsign.
  assert (Hinf : str_eqb (c :: r) (lit "Infinity") = false).
  { change (lit "Infinity") with (73 :: lit "nfinity"). cbn [str_eqb].
    rewrite H73. reflexivity. }
  rewrite Hinf.
  pose proof (span_digits_app (c :: r) [] Hall eq_refl) as Hsp.
  rewrite app_nil_r in Hsp. rewrite Hsp. rewrite app_nil_r. reflexivity.
Qed.

Lemma string_to_number_integer (z : Z) :
  (Z.abs z < 10 ^ 21)%Z ->
  string_to_number (number_to_string (num_of_Z z)) = Finite (num_of_Z z).
Proof.
  intros Hz. rewrite number_to_string_integer by exact Hz.
  destruct (Z.eq_dec z 0%Z) as [->|Hnz]; [reflexivity|].
  destruct (digits_shape (Z.abs_N z)) as (c & r & Hd & Hc & Hall); [lia|].
  pose proof (digits_value_digits (Z.abs_N z)) as Hv. rewrite Hd in Hv |- *.
  set (s := (if (z <? 0)%Z then [45] else []) ++ c :: r).
  assert (Hdc : is_digit c = true).
  { cbn [forallb] in Hall. apply andb_prop in Hall as [H _]. exact H. }
  assert (Htrim : trim s = s).
  { assert (Hlast : is_js_space (List.last s 0) = false).
    { subst s. destruct (z <? 0)%Z; cbn [app].
      - change (List.last (45 :: c :: r) 0) with (List.last (c :: r) 0).
        apply is_digit_not_space, forallb_last; [discriminate | exact Hall].
      - apply is_digit_not_space, forallb_last; [discriminate | exact Hall]. }
    subst s. destruct (z <? 0)%Z; cbn [app] in *.
    - eapply trim_no_space_ends; [reflexivity | reflexivity | exact Hlast].
    - eapply trim_no_space_ends; [reflexivity | apply is_digit_not_space; exact Hdc
                                 | exact Hlast]. }
  unfold string_to_number. rewrite Htrim.
  assert (Hnd : nondecimal_literal s = None).
  { subst s. destruct (z <? 0)%Z; cbn [app nondecimal_literal]; [reflexivity|].
    destruct r; [reflexivity|]. apply N.eqb_neq in Hc. rewrite Hc. reflexivity. }
  assert (Hs : exists x u, s = x :: u).
  { subst s. destruct (z <? 0)%Z; cbn [app]; eauto. }
  destruct Hs as (x & u & Hs). rewrite Hs. rewrite <- Hs. rewrite Hnd.
  subst s. rewrite (decimal_literal_digits _ c r Hall).
  rewrite numeral_value_integer, Hv. do 2 f_equal.
  destruct (z <? 0)%Z eqn:E; [apply Z.ltb_lt in E | apply Z.ltb_ge in E]; lia.
Qed.

(** X12.  A click on the delete button of a task's row removes the tasks with
    that task's id and no other: the [data-id] that [renderTasks] wrote is
    the decimal text of the id, and [Number] reads it back as the id. *)
Theorem delete_click_own_row (t : Task) (ts : list Task) (p : Page) :
  wf_task t ->
  tasks p = List.map task_object ts ->
  let r := delete_click (number_to_string (num_of_Z (task_id t))) p in
  fst r = Normal tt /\
  tasks (snd r) =
    List.map task_object
      (List.filter (fun u => negb (task_id u =? task_id t)%Z) ts) /\
  taskTableBody (snd r) =
    rows_of (List.filter (fun u => negb (task_id u =? task_id t)%Z) ts).
Proof.
  intros Hwf Hp r. subst r. unfold delete_click.
  rewrite string_to_number_integer by (apply safe_integer_bound; exact Hwf).
  rewrite (deleteTask_run (task_id t) ts p Hp). repeat split.
Qed.

Lemma delete_click_own_row_witness :
  let p := set_tasks (List.map task_object [example_task]) example_page in
  let r := delete_click (number_to_string (num_of_Z (task_id example_task))) p in
  fst r = Normal tt /\
  tasks (snd r) =
    List.map task_object
      (List.filter (fun u => negb (task_id u =? task_id example_task)%Z) [example_task]) /\
  taskTableBody (snd r) =
    rows_of (List.filter (fun u => negb (task_id u =? task_id example_task)%Z) [example_task]).
Proof.
  apply (delete_click_own_row example_task [example_task]
           (set_tasks (List.map task_object [example_task]) example_page)).
  - unfold wf_task, is_safe_integer. simpl. lia.
  - reflexivity.
Defined.

(** ** Sequences of events *)

Lemma filter_tasks_records (n : number) (ts : list Task) :
  filter_tasks n (List.map task_object ts) =
  Normal (List.map task_object
            (List.filter
               (fun t => strict_neq_num (JNum (num_of_Z (task_id t))) n) ts)).
Proof.
  induction ts as [|t ts IH]; [reflexivity|].
  cbn [List.map filter_tasks].
  change (get_prop (task_object t) (lit "id"))
    with (Normal (A:=JsVal) (JNum (num_of_Z (task_id t)))).
  cbv iota. rewrite IH. cbn [List.filter].
  destruct (strict_neq_num (JNum (num_of_Z (task_id t))) n); reflexivity.
Qed.

Lemma filter_tasks_unequal_records (ts : list Task) :
  filter_tasks_unequal (List.map task_object ts) = Normal (List.map task_object ts).
Proof.
  induction ts as [|t ts IH]; [reflexivity|].
  cbn [List.map filter_tasks_unequal].
  change (get_prop (task_object t) (lit "id"))
    with (Normal (A:=JsVal) (JNum (num_of_Z (task_id t)))).
  cbv iota. rewrite IH. reflexivity.
Qed.

Lemma filter_wf (f : Task -> bool) (ts : list Task) :
  Forall wf_task ts -> Forall wf_task (List.filter f ts).
Proof.
  rewrite !List.Forall_forall. intros H t Ht.
  apply filter_In in Ht as [Ht _]. auto.
Qed.

(** A listener run on a page that shows a list of task records completes
    and leaves such a page. *)
Lemma saved_drawn_shown (ts : list Task) (p : Page) :
  shown (appended (rows_of ts) (cleared (saved (set_tasks (List.map task_object ts) p)))).
Proof. exists ts. split; reflexivity. Qed.

Lemma delete_click_records (data_id : jsstring) (ts : list Task) (p : Page) :
  tasks p = List.map task_object ts ->
  exists f,
    delete_click data_id p =
    (Normal tt,
     appended (rows_of (List.filter f ts))
       (cleared (saved (set_tasks (List.map task_object (List.filter f ts)) p)))).
Proof.
  intros Hp. unfold delete_click.
  assert (Hall : List.filter (fun _ : Task => true) ts = ts).
  { clear. induction ts as [|t ts IH]; [reflexivity|]. cbn. rewrite IH. reflexivity. }
  assert (Hun : deleteTask_unequal p =
                (Normal tt,
                 appended (rows_of (List.filter (fun _ => true) ts))
                   (cleared (saved (set_tasks
                      (List.map task_object (List.filter (fun _ => true) ts)) p))))).
  { rewrite Hall. unfold deleteTask_unequal. run_script.
    rewrite Hp, filter_tasks_unequal_records, saveTasks_run.
    rewrite (renderTasks_tasks ts) by reflexivity. reflexivity. }
  destruct (string_to_number data_id) as [n| |]; [|eauto|eauto].
  eexists. unfold deleteTask. run_script.
  rewrite Hp, filter_tasks_records, saveTasks_run.
  rewrite (renderTasks_tasks (List.filter _ ts)) by reflexivity. reflexivity.
Qed.

Lemma addTask_records (now : Z) (locale_now : jsstring) (ts : list Task) (p : Page) :
  tasks p = List.map task_object ts ->
  taskTableBody p = rows_of ts ->
  exists ts',
    fst (addTask now locale_now p) = Normal JUndefined /\
    tasks (snd (addTask now locale_now p)) = List.map task_object ts' /\
    taskTableBody (snd (addTask now locale_now p)) = rows_of ts' /\
    (Forall wf_task ts -> is_safe_integer now -> Forall wf_task ts').
Proof.
  intros Hp Hb.
  destruct (trim (taskTitleInput p)) as [|c u] eqn:E.
  - exists ts. unfold addTask. run_script. rewrite E. cbn [fst snd].
    repeat split; auto.
  - rewrite addTask_run by (rewrite E; discriminate).
    set (t := new_task now locale_now p).
    rewrite (renderTasks_tasks (ts ++ [t]))
      by (cbn [tasks saved add_event set_localStorage set_tasks];
          rewrite Hp; apply map_task_object_app).
    exists (ts ++ [t]). cbn [fst snd]. split; [reflexivity|].
    split. { cbn. rewrite Hp. apply map_task_object_app. }
    split; [reflexivity|].
    intros Hwf Hnow. apply Forall_app. split; [exact Hwf|]. constructor; [exact Hnow|constructor].
Qed.

Lemma resume_frame (o : FetchOutcome) (p : Page) :
  fst (sendTaskToSheet_resume o p) = Normal tt /\
  tasks (snd (sendTaskToSheet_resume o p)) = tasks p /\
  localStorage (snd (sendTaskToSheet_resume o p)) = localStorage p /\
  taskTableBody (snd (sendTaskToSheet_resume o p)) = taskTableBody p.
Proof.
  destruct o as [error | status text | status error]; cbn [sendTaskToSheet_resume];
    try destruct (response_ok status); repeat split.
Qed.

Lemma dispatch_records (e : UiEvent) (ts : list Task) (p : Page) :
  tasks p = List.map task_object ts ->
  taskTableBody p = rows_of ts ->
  exists ts',
    fst (dispatch e p) = Normal tt /\
    tasks (snd (dispatch e p)) = List.map task_object ts' /\
    taskTableBody (snd (dispatch e p)) = rows_of ts' /\
    (Forall wf_task ts -> clock_ok e -> Forall wf_task ts').
Proof.
  intros Hp Hb.
  assert (Hadd : forall now locale_now,
    exists ts',
      fst ((addTask now locale_now ;;; ret tt) p) = Normal tt /\
      tasks (snd ((addTask now locale_now ;;; ret tt) p)) = List.map task_object ts' /\
      taskTableBody (snd ((addTask now locale_now ;;; ret tt) p)) = rows_of ts' /\
      (Forall wf_task ts -> is_safe_integer now -> Forall wf_task ts')).
  { intros now locale_now.
    destruct (addTask_records now locale_now ts p Hp Hb) as (ts' & H1 & H2 & H3 & H4).
    exists ts'. run_script. destruct (addTask now locale_now p) as [c q].
    cbn [fst snd] in *. subst c. cbn [fst snd]. auto. }
  destruct e as [text | value | now locale_now | key now locale_now | data_id | o | ];
    cbn [dispatch clock_ok].
  - exists ts. repeat split; auto.
  - exists ts. repeat split; auto.
  - apply Hadd.
  - unfold title_keydown. destruct (str_eqb key (lit "Enter")); [apply Hadd|].
    exists ts. repeat split; auto.
  - destruct (delete_click_records data_id ts p Hp) as (f & ->).
    exists (List.filter f ts). cbn [fst snd]. repeat split.
    intros Hwf _. apply filter_wf. exact Hwf.
  - destruct (resume_frame o p) as (H1 & H2 & _ & H4).
    exists ts. rewrite H1, H2, H4. auto.
  - exists ts. repeat split; auto.
Qed.

Lemma rows_of_count (ts : list Task) :
  length (task_rows (rows_of ts)) = length (List.map task_object ts).
Proof.
  rewrite task_rows_rows_of, length_map. destruct ts; [reflexivity|].
  rewrite length_map. reflexivity.
Qed.

(** X13.  From a page that shows a list of task records, whatever the user does
    and however the requests end, no listener throws, the list stays a list
    of task records and the table shows it: the number of task rows is
    always the number of tasks. *)
Theorem play_keeps_shown (es : list UiEvent) (p : Page) :
  shown p ->
  Forall (fun c => c = Normal tt) (fst (play es p)) /\
  shown (snd (play es p)) /\
  length (task_rows (taskTableBody (snd (play es p)))) =
    length (tasks (snd (play es p))).
Proof.
  revert p. induction es as [|e es IH]; intros p Hs.
  - cbn [play fst snd]. split; [constructor|]. split; [exact Hs|].
    destruct Hs as (ts & -> & ->). apply rows_of_count.
  - destruct Hs as (ts & Hp & Hb).
    destruct (dispatch_records e ts p Hp Hb) as (ts' & H1 & H2 & H3 & _).
    cbn [play]. destruct (dispatch e p) as [c q]. cbn [fst snd] in *.
    specialize (IH q (ex_intro _ ts' (conj H2 H3))).
    destruct (play es q) as [cs q']. cbn [fst snd] in *.
    destruct IH as (A & B & C). split; [constructor; assumption|]. auto.
Qed.

Lemma play_keeps_shown_witness :
  Forall (fun c => c = Normal tt) (fst (play example_events (snd (init example_page)))) /\
  shown (snd (play example_events (snd (init example_page)))) /\
  length (task_rows (taskTableBody (snd (play example_events (snd (init example_page)))))) =
    length (tasks (snd (play example_events (snd (init example_page))))).
Proof.
  apply (play_keeps_shown example_events (snd (init example_page))).
  exists []. split; reflexivity.
Defined.

(** ** The stored item along the events *)

Lemma saved_rendered_store_step (l : list JsVal) (p : Page) :
  store_step p (snd (renderTasks (saved (set_tasks l p)))).
Proof.
  destruct (renderTasks_cases (saved (set_tasks l p))) as (c & rows & ->).
  right. reflexivity.
Qed.

Lemma addTask_store_step (now : Z) (locale_now : jsstring) (p : Page) :
  store_step p (snd (addTask now locale_now p)).
Proof.
  destruct (trim (taskTitleInput p)) as [|c u] eqn:E.
  - left. unfold addTask. run_script. rewrite E. split; reflexivity.
  - rewrite addTask_run by (rewrite E; discriminate).
    set (p1 := saved (set_tasks _ p)).
    destruct (renderTasks_cases p1) as (c0 & rows & ->).
    destruct c0; right; reflexivity.
Qed.

Lemma deleteTask_store_step (n : number) (p : Page) :
  store_step p (snd (deleteTask n p)).
Proof.
  unfold deleteTask. run_script.
  destruct (filter_tasks n (tasks p)) as [l|e]; [|left; split; reflexivity].
  rewrite saveTasks_run. apply saved_rendered_store_step.
Qed.

Lemma deleteTask_unequal_store_step (p : Page) :
  store_step p (snd (deleteTask_unequal p)).
Proof.
  unfold deleteTask_unequal. run_script.
  destruct (filter_tasks_unequal (tasks p)) as [l|e]; [|left; split; reflexivity].
  rewrite saveTasks_run. apply saved_rendered_store_step.
Qed.

Lemma dispatch_store_step (e : UiEvent) (p : Page) :
  store_step p (snd (dispatch e p)).
Proof.
  assert (Hadd : forall now locale_now,
            store_step p (snd ((addTask now locale_now ;;; ret tt) p))).
  { intros now locale_now. pose proof (addTask_store_step now locale_now p) as H.
    run_script. destruct (addTask now locale_now p) as [[v|x] q]; exact H. }
  destruct e as [text | value | now locale_now | key now locale_now | data_id | o | ];
    cbn [dispatch].
  - left. split; reflexivity.
  - left. split; reflexivity.
  - apply Hadd.
  - unfold title_keydown. destruct (str_eqb key (lit "Enter")); [apply Hadd|].
    left. split; reflexivity.
  - unfold delete_click. destruct (string_to_number data_id);
      [apply deleteTask_store_step | apply deleteTask_unequal_store_step ..].
  - destruct (resume_frame o p) as (_ & H2 & H3 & _). left. auto.
  - left. split; reflexivity.
Qed.

(** X14.  Whatever happens on the page, the script writes no item of
    [localStorage] other than its own: every other key keeps its value.
    And once the stored text is the text of the list in memory, it stays
    so. *)
Theorem play_store (es : list UiEvent) (p : Page) :
  (forall k, k <> STORAGE_KEY ->
     localStorage (snd (play es p)) !! k = localStorage p !! k) /\
  (stored p -> stored (snd (play es p))).
Proof.
  revert p. induction es as [|e es IH]; intros p.
  - cbn [play snd]. auto.
  - cbn [play]. pose proof (dispatch_store_step e p) as Hstep.
    destruct (dispatch e p) as [c q]. cbn [snd] in Hstep.
    specialize (IH q). destruct (play es q) as [cs q']. cbn [snd] in *.
    destruct IH as [IHk IHs]. split.
    + intros k Hk. rewrite (IHk k Hk).
      destruct Hstep as [[_ ->] | ->]; [reflexivity|].
      apply lookup_insert_ne. congruence.
    + intros Hst. apply IHs. unfold stored in *.
      destruct Hstep as [[-> ->] | ->]; [exact Hst|]. apply lookup_insert_eq.
Qed.

Lemma loadTasks_stored (ts : list Task) (q : Page) :
  Forall wf_task ts ->
  localStorage q !! STORAGE_KEY = Some (tasks_json (List.map task_object ts)) ->
  fst (loadTasks q) = Normal (List.map task_object ts).
Proof.
  intros Hwf Hl. rewrite loadTasks_run. cbn [fst]. rewrite Hl.
  pose proof (tasks_json_tasks ts Hwf) as HP.
  destruct (tasks_json_head (List.map task_object ts)) as (r & Hr).
  rewrite Hr in HP |- *. rewrite HP. reflexivity.
Qed.

Lemma loadTasks_same_storage (p q : Page) :
  localStorage q = localStorage p -> fst (loadTasks q) = fst (loadTasks p).
Proof. intros H. rewrite !loadTasks_run. cbn [fst]. rewrite H. reflexivity. Qed.

(** X15.  Memory, table and stored item stay in agreement: from a consistent
    page, along every sequence of events whose clock readings are safe
    integers, every task is a well-formed task record, the table shows the
    list, and a reload would load exactly the list in memory. *)
Theorem play_keeps_consistent (es : list UiEvent) (p : Page) :
  consistent p -> Forall clock_ok es -> consistent (snd (play es p)).
Proof.
  revert p. induction es as [|e es IH]; intros p Hc Hck; [exact Hc|].
  inversion Hck as [|e' es' He Hes]; subst.
  destruct Hc as (ts & Hwf & Hp & Hb & Hl).
  destruct (dispatch_records e ts p Hp Hb) as (ts' & _ & H2 & H3 & H4).
  pose proof (dispatch_store_step e p) as Hstep.
  cbn [play]. destruct (dispatch e p) as [c q]. cbn [fst snd] in *.
  assert (Hq : consistent q).
  { exists ts'. split; [auto|]. split; [exact H2|]. split; [exact H3|].
    destruct Hstep as [[Ht Hs] | Hs].
    - rewrite (loadTasks_same_storage p q Hs), Hl, Ht. reflexivity.
    - rewrite H2. apply loadTasks_stored; [auto|].
      rewrite Hs, H2. apply lookup_insert_eq. }
  specialize (IH q Hq Hes). destruct (play es q) as [cs q']. exact IH.
Qed.

(** ** Startup *)

Lemma init_records (ts : list Task) (p : Page) :
  fst (loadTasks p) = Normal (List.map task_object ts) ->
  init p =
  (Normal tt,
   appended (rows_of ts) (cleared (set_tasks (List.map task_object ts) p))).
Proof.
  intros Hl. unfold init. run_script. rewrite loadTasks_run in Hl |- *.
  cbn [fst] in Hl. injection Hl as Hl. rewrite Hl.
  apply renderTasks_tasks. reflexivity.
Qed.

Lemma init_consistent (ts : list Task) (p : Page) :
  Forall wf_task ts ->
  fst (loadTasks p) = Normal (List.map task_object ts) ->
  consistent (snd (init p)).
Proof.
  intros Hwf Hl. rewrite (init_records ts p Hl). cbn [snd].
  exists ts. split; [exact Hwf|]. split; [reflexivity|]. split; [reflexivity|].
  transitivity (fst (loadTasks p)); [apply loadTasks_same_storage; reflexivity | exact Hl].
Qed.

(** X16.  A reload brings the saved list back: when the script starts on the
    stored items that [saveTasks] left for a list of well-formed tasks, it
    has that list in memory and draws its rows, and the page is
    consistent. *)
Theorem init_restores_saved (ts : list Task) (p : Page) (title status : jsstring) :
  Forall wf_task ts ->
  let storage := localStorage (snd (saveTasks (set_tasks (List.map task_object ts) p))) in
  let r := init (blank_page storage title status) in
  fst r = Normal tt /\
  tasks (snd r) = List.map task_object ts /\
  taskTableBody (snd r) = rows_of ts /\
  consistent (snd r).
Proof.
  intros Hwf storage r. subst r storage. rewrite saveTasks_run. cbn [snd].
  set (p0 := blank_page _ title status).
  assert (Hl : fst (loadTasks p0) = Normal (List.map task_object ts)).
  { apply loadTasks_stored; [exact Hwf|]. subst p0. cbn [localStorage blank_page].
    apply saved_lookup. }
  split; [rewrite (init_records ts p0 Hl); reflexivity|].
  split; [rewrite (init_records ts p0 Hl); reflexivity|].
  split; [rewrite (init_records ts p0 Hl); reflexivity|].
  apply (init_consistent ts); assumption.
Qed.

Lemma init_restores_saved_witness :
  let storage :=
    localStorage (snd (saveTasks (set_tasks (List.map task_object [example_task])
                                    example_page))) in
  let r := init (blank_page storage [] (lit "pending")) in
  fst r = Normal tt /\
  tasks (snd r) = List.map task_object [example_task] /\
  taskTableBody (snd r) = rows_of [example_task] /\
  consistent (snd r).
Proof.
  apply (init_restores_saved [example_task] example_page [] (lit "pending")).
  repeat constructor. unfold wf_task, is_safe_integer. simpl. lia.
Defined.

(** X17.  At the first visit, or when the stored item is not the JSON text of an
    array, the script starts with the empty list and the table shows the
    placeholder row alone. *)
Theorem init_without_list (p : Page) :
  (localStorage p !! STORAGE_KEY = None \/
   exists text, localStorage p !! STORAGE_KEY = Some text /\
     (JSON_parse text = None \/
      exists v, JSON_parse text = Some v /\ is_array v = false)) ->
  init p = (Normal tt, appended [Tr empty_row_markup] (cleared (set_tasks [] p))) /\
  consistent (snd (init p)).
Proof.
  intros H.
  assert (Hl : fst (loadTasks p) = Normal (List.map task_object [])).
  { rewrite loadTasks_run. cbn [fst List.map].
    destruct H as [-> | (text & -> & H)]; [reflexivity|].
    destruct text as [|c r]; [reflexivity|].
    destruct H as [-> | (v & -> & Hv)]; [reflexivity|].
    destruct v; try reflexivity. discriminate. }
  split; [apply (init_records [] p Hl)|].
  apply (init_consistent [] p); [constructor | exact Hl].
Qed.

Lemma init_without_list_witness :
  init example_page =
    (Normal tt, appended [Tr empty_row_markup] (cleared (set_tasks [] example_page))) /\
  consistent (snd (init example_page)).
Proof. apply (init_without_list example_page). left. reflexivity. Defined.

Lemma play_keeps_consistent_witness :
  consistent (snd (play example_events (snd (init example_page)))).
Proof.
  apply (play_keeps_consistent example_events (snd (init example_page))).
  - apply (init_consistent [] example_page); [constructor | reflexivity].
  - unfold example_events.
    repeat (constructor;
            [cbn [clock_ok]; try exact I; unfold is_safe_integer; simpl; lia|]).
    constructor.
Defined.

Lemma play_store_witness :
  (forall k, k <> STORAGE_KEY ->
     localStorage (snd (play example_events (snd (init example_page)))) !! k =
     localStorage (snd (init example_page)) !! k) /\
  stored (snd (play example_events
                 (snd (addTask 1762112345678 (lit "now") example_page)))).
Proof.
  split.
  - apply (play_store example_events (snd (init example_page))).
  - apply (play_store example_events
             (snd (addTask 1762112345678 (lit "now") example_page))).
    vm_compute. reflexivity.
Defined.

(** ** The message *)

(** X18.  The timer of a message is never cancelled: when a second message is
    shown before the timer of the first has run, that timer hides the
    second message, whose text and error mark stay in the element; the
    timer of the second message then changes nothing. *)
Theorem showSaveMessage_overlap (a b : jsstring) (ea eb : bool) (p : Page) :
  let p2 := snd (showSaveMessage b eb (snd (showSaveMessage a ea p))) in
  let p3 := snd (saveMessage_timeout p2) in
  saveMessage p2 = {| textContent := b; class_error := eb; class_visible := true |} /\
  saveMessage p3 = {| textContent := b; class_error := eb; class_visible := false |} /\
  snd (saveMessage_timeout p3) = p3 /\
  trace p3 = trace p ++ [EShowMessage a ea; ESetTimeout 1800;
                         EShowMessage b eb; ESetTimeout 1800].
Proof.
  cbv zeta. repeat split. cbn. rewrite <- !app_assoc. reflexivity.
Qed.

(** ** The hidden form *)

(** X19.  For a task record, [sendTaskToGoogleForm] posts a form with three
    hidden inputs that carry the title, the status and the creation string
    under the entry names of the Google form, to an iframe of its own.
    When [form.submit()] does not throw, a timer of 700 ms is set, and the
    first of the [load] listener, the [error] listener and the timer to
    run shows its message and removes form and iframe; the timer, when it
    runs after one of the listeners, changes nothing, so one message is
    shown for one task.  When [form.submit()] throws, the error is logged,
    "Could not save" is shown, form and iframe are removed and no timer of
    700 ms is set. *)
Theorem sendTaskToGoogleForm_one_message (now : Z) (t : Task) (p : Page) :
  exists tr,
    sendTaskToGoogleForm now false (task_object t) p =
      (Normal tr, add_event (ESetTimeout 700) p) /\
    form_inputs tr = [(lit "entry.1486922306", task_title t);
                      (lit "entry.1852717744", task_status t);
                      (lit "entry.1431330731", task_createdAt t)] /\
    form_target tr = iframe_name tr /\
    form_sent tr = true /\ form_in_body tr = true /\ iframe_in_body tr = true /\
    (forall q,
       iframe_load tr q =
         (Normal (cleanup tr), message_shown (lit "Saved to Google Sheet") false q) /\
       iframe_error tr q =
         (Normal (cleanup tr), message_shown (lit "Could not save") true q) /\
       submit_timeout tr q =
         (Normal (cleanup tr), message_shown (lit "Saved to Google Sheet") false q) /\
       submit_timeout (cleanup tr) q = (Normal (cleanup tr), q)) /\
    sendTaskToGoogleForm now true (task_object t) p =
      (Normal {| iframe_name := iframe_name tr; form_action := form_action tr;
                 form_method := form_method tr; form_target := form_target tr;
                 form_inputs := form_inputs tr;
                 form_in_body := false; iframe_in_body := false;
                 hasSubmitted := true; form_sent := false |},
       message_shown (lit "Could not save") true
         (add_event (EConsoleError [lit "Could not save to Google Sheet:"; lit "Error"]) p)).
Proof.
  exists (transfer_of now t). repeat split.
Qed.

(** ** What a delete button cannot remove *)

Lemma filter_tasks_keeps (n : number) (v x : JsVal) (l l' : list JsVal) :
  filter_tasks n l = Normal l' ->
  In v l -> get_prop v (lit "id") = Normal x -> strict_neq_num x n = true ->
  In v l'.
Proof.
  revert l'. induction l as [|w l IH]; intros l' Hf Hin Hid Hneq; [contradiction|].
  cbn [filter_tasks] in Hf.
  destruct (get_prop w (lit "id")) as [y|e] eqn:Ew; [|discriminate].
  destruct (filter_tasks n l) as [r'|e] eqn:Er; [|discriminate].
  injection Hf as <-. destruct Hin as [-> | Hin].
  - rewrite Hid in Ew. injection Ew as <-. rewrite Hneq. left. reflexivity.
  - specialize (IH r' eq_refl Hin Hid Hneq).
    destruct (strict_neq_num y n); [right|]; exact IH.
Qed.

Lemma filter_tasks_unequal_keeps (l l' : list JsVal) :
  filter_tasks_unequal l = Normal l' -> l' = l.
Proof.
  revert l'. induction l as [|w l IH]; intros l' Hf.
  - injection Hf as <-. reflexivity.
  - cbn [filter_tasks_unequal] in Hf.
    destruct (get_prop w (lit "id")) as [y|e]; [|discriminate].
    destruct (filter_tasks_unequal l) as [r'|e]; [|discriminate].
    injection Hf as <-. rewrite (IH r' eq_refl). reflexivity.
Qed.

Lemma tasks_saved_rendered (l : list JsVal) (p : Page) :
  tasks (snd (renderTasks (saved (set_tasks l p)))) = l.
Proof.
  destruct (renderTasks_cases (saved (set_tasks l p))) as (c & rows & ->).
  reflexivity.
Qed.

(** X20.  No click on a delete button removes an element whose [id] is not a
    number: [Number] always hands [deleteTask] a number, and the strict
    inequality tells it apart from an id that is missing, a string or any
    other value. *)
Theorem delete_click_keeps_other_ids (data_id : jsstring) (v x : JsVal) (p : Page) :
  In v (tasks p) ->
  get_prop v (lit "id") = Normal x ->
  (forall m, x <> JNum m) ->
  In v (tasks (snd (delete_click data_id p))).
Proof.
  intros Hin Hid Hx.
  assert (Hneq : forall n, strict_neq_num x n = true).
  { intros n. destruct x; try reflexivity. exfalso. eapply Hx. reflexivity. }
  unfold delete_click. destruct (string_to_number data_id) as [n| |].
  - unfold deleteTask. run_script.
    destruct (filter_tasks n (tasks p)) as [l'|e] eqn:Ef; [|exact Hin].
    rewrite saveTasks_run, tasks_saved_rendered.
    eapply filter_tasks_keeps; eauto.
  - unfold deleteTask_unequal. run_script.
    destruct (filter_tasks_unequal (tasks p)) as [l'|e] eqn:Ef; [|exact Hin].
    rewrite saveTasks_run, tasks_saved_rendered.
    rewrite (filter_tasks_unequal_keeps _ _ Ef). exact Hin.
  - unfold deleteTask_unequal. run_script.
    destruct (filter_tasks_unequal (tasks p)) as [l'|e] eqn:Ef; [|exact Hin].
    rewrite saveTasks_run, tasks_saved_rendered.
    rewrite (filter_tasks_unequal_keeps _ _ Ef). exact Hin.
Qed.

Lemma delete_click_keeps_other_ids_witness :
  In (JObj [(lit "id", JStr (lit "7")); (lit "title", JStr (lit "x"))])
    (tasks (snd (delete_click (lit "7")
                   (set_tasks [JObj [(lit "id", JStr (lit "7"));
                                     (lit "title", JStr (lit "x"))]]
                      example_page)))).
Proof.
  apply (delete_click_keeps_other_ids (lit "7")
           (JObj [(lit "id", JStr (lit "7")); (lit "title", JStr (lit "x"))])
           (JStr (lit "7"))).
  - left. reflexivity.
  - reflexivity.
  - intros m. discriminate.
Defined.
